(** * wallpaper-reddit: the image helpers of [wpreddit/download.py]

    A shallow embedding of [download_image], [resize_image],
    [set_image_title], [remove_tags] and [pure_pil_alpha_to_color_v2],
    and the properties of the specification stated over it.

    Python [str] values are modelled as [string]: a sequence of code
    points below 256.  Python [int] is [Z]; the result of the true
    division [/] is an exact rational [Q]. *)

From Stdlib Require Import ZArith QArith Qround Lqa String Ascii List Lia Bool.
From stdpp Require Import base gmap strings.

Local Open Scope string_scope.
Local Open Scope Z_scope.

(** ** Python strings *)

Module PyStr.

Definition code (c : ascii) : N := N_of_ascii c.

(** [str.isspace] on the code points below 256. *)
Definition isspace (c : ascii) : bool :=
  let n := code c in
  (((9 <=? n) && (n <=? 13)) || ((28 <=? n) && (n <=? 32))
   || (n =? 133) || (n =? 160))%N.

(** [str.lower] on one code point below 256. *)
Definition lower_char (c : ascii) : ascii :=
  let n := code c in
  if (((65 <=? n) && (n <=? 90))
      || ((192 <=? n) && (n <=? 222) && negb (n =? 215)))%N
  then ascii_of_N (n + 32) else c.

Fixpoint lower (s : string) : string :=
  match s with
  | EmptyString => EmptyString
  | String c r => String (lower_char c) (lower r)
  end.

(** [s.replace(old, '')] for a one-character [old]. *)
Fixpoint remove_char (old : ascii) (s : string) : string :=
  match s with
  | EmptyString => EmptyString
  | String c r =>
      if Ascii.eqb c old then remove_char old r
      else String c (remove_char old r)
  end.

Fixpoint lstrip (s : string) : string :=
  match s with
  | EmptyString => EmptyString
  | String c r => if isspace c then lstrip r else s
  end.

Fixpoint rstrip (s : string) : string :=
  match s with
  | EmptyString => EmptyString
  | String c r =>
      match rstrip r with
      | EmptyString => if isspace c then EmptyString else String c EmptyString
      | r' => String c r'
      end
  end.

(** [s.strip()] *)
Definition strip (s : string) : string := rstrip (lstrip s).

(** [needle in s] *)
Fixpoint contains (needle s : string) : bool :=
  String.prefix needle s ||
  match s with
  | EmptyString => false
  | String _ r => contains needle r
  end.

Definition all_space (s : string) : bool :=
  match lstrip s with EmptyString => true | _ => false end.

End PyStr.

(** ** [remove_tags]

    [re.sub(' +', ' ', re.sub("[\[\(\<].*?[\]\)\>]", "", str)).strip()] *)

Definition is_open (c : ascii) : bool :=
  Ascii.eqb c "[" || Ascii.eqb c "(" || Ascii.eqb c "<".

Definition is_close (c : ascii) : bool :=
  Ascii.eqb c "]" || Ascii.eqb c ")" || Ascii.eqb c ">".

(** The one code point that [.] does not match. *)
Definition is_newline (c : ascii) : bool := Ascii.eqb c "010".

(** After an opening bracket: the lazy [.*?] followed by the class of
    closing brackets.  The match ends at the first closing bracket, and there
    is none when a line break comes first or the string ends.  The result
    is what follows the match. *)
Fixpoint find_close (s : string) : option string :=
  match s with
  | EmptyString => None
  | String c r =>
      if is_close c then Some r
      else if is_newline c then None
      else find_close r
  end.

(** [re.sub(pattern, "", s)]: matches are taken leftmost first and do not
    overlap; where no match starts, the character is kept. *)
Fixpoint sub_tags_fuel (n : nat) (s : string) : string :=
  match n with
  | O => s
  | S n' =>
      match s with
      | EmptyString => EmptyString
      | String c r =>
          if is_open c then
            match find_close r with
            | Some r' => sub_tags_fuel n' r'
            | None => String c (sub_tags_fuel n' r)
            end
          else String c (sub_tags_fuel n' r)
      end
  end.

Definition sub_tags (s : string) : string :=
  sub_tags_fuel (String.length s) s.

Definition is_sp (c : ascii) : bool := Ascii.eqb c " ".

(** [re.sub(' +', ' ', s)]: of each maximal run of spaces only the last
    one is kept. *)
Fixpoint collapse_spaces (s : string) : string :=
  match s with
  | EmptyString => EmptyString
  | String c r =>
      if is_sp c then
        match r with
        | String c' _ => if is_sp c' then collapse_spaces r
                         else String c (collapse_spaces r)
        | EmptyString => String c EmptyString
        end
      else String c (collapse_spaces r)
  end.

Definition remove_tags (str : string) : string :=
  PyStr.strip (collapse_spaces (sub_tags str)).

(** ** Numbers

    Python 3's [/] is true division and gives a [float] also for two
    [int] operands.  A number is kept with its Python type, and the float
    is the exact rational: halving an integer below 2^53 in magnitude is
    exact in binary floating point, and image and glyph extents are far
    below that. *)

Inductive pynum : Type :=
| PyInt (z : Z)
| PyFloat (q : Q).

Definition value (n : pynum) : Q :=
  match n with
  | PyInt z => inject_Z z
  | PyFloat q => q
  end.

(** [n + k] for an [int] literal [k] *)
Definition py_add (n : pynum) (k : Z) : pynum :=
  match n with
  | PyInt z => PyInt (z + k)
  | PyFloat q => PyFloat (q + inject_Z k)
  end.

(** [a / b] on two ints *)
Definition truediv (a b : Z) : pynum := PyFloat (inject_Z a / inject_Z b).

(** Python's [==] on numbers compares values. *)
Definition py_eq (a b : pynum) : Prop := (value a == value b)%Q.

(** Python's [round]: to the nearest integer, ties to the even one. *)
Definition py_round (q : Q) : Z :=
  let f := Qfloor q in
  let r := (q - inject_Z f)%Q in
  match (r ?= 1 # 2)%Q with
  | Lt => f
  | Gt => f + 1
  | Eq => if Z.even f then f else f + 1
  end.

(** ** Gravity (lines 53 and 62-75 of [set_image_title]) *)

(** [gravity.lower().replace(' ', '').strip()] *)
Definition normalize_gravity (gravity : string) : string :=
  PyStr.strip (PyStr.remove_char " " (PyStr.lower gravity)).

Definition title_top_left_x
    (gravity : string) (size0 text_x padding0 : Z) : pynum :=
  if PyStr.contains "left" gravity then PyInt padding0
  else if PyStr.contains "right" gravity then PyInt (size0 - text_x - padding0)
  else truediv (size0 - text_x) 2.

Definition title_top_left_y
    (gravity : string) (size1 text_y padding1 : Z) : pynum :=
  if PyStr.contains "top" gravity then PyInt padding1
  else if PyStr.contains "bottom" gravity then PyInt (size1 - text_y - padding1)
  else truediv (size1 - text_y) 2.

(** The top-left point of the title as [set_image_title] computes it from
    the caller's gravity string, the size of the image, the extent of the
    title and the padding. *)
Definition resolve
    (gravity : string) (extent canvas padding : Z * Z) : pynum * pynum :=
  let g := normalize_gravity gravity in
  (title_top_left_x g (fst canvas) (fst extent) (fst padding),
   title_top_left_y g (snd canvas) (snd extent) (snd padding)).

(** The anchors the two [if] chains distinguish. *)
Inductive hanchor : Type := Left | HCenter | Right.
Inductive vanchor : Type := Top | VCenter | Bottom.

Definition horizontal (gravity : string) : hanchor :=
  let g := normalize_gravity gravity in
  if PyStr.contains "left" g then Left
  else if PyStr.contains "right" g then Right else HCenter.

Definition vertical (gravity : string) : vanchor :=
  let g := normalize_gravity gravity in
  if PyStr.contains "top" g then Top
  else if PyStr.contains "bottom" g then Bottom else VCenter.

(** ** Exceptions *)

Inductive exn : Type :=
| IOError
| IndexError
| ValueError
| ZeroDivisionError
| TypeError.

(** ** Images

    A PIL image: its mode string, its size and one plane of integer
    samples per band.  A plane is read inside [0, width) x [0, height). *)

Definition band : Type := Z -> Z -> Z.

Record Image : Type := mkImage {
  Image_mode : string;
  Image_size : Z * Z;
  Image_bands : list band
}.

Definition getpixel (im : Image) (x y : Z) : list Z :=
  map (fun b : band => b x y) (Image_bands im).

Definition in_image (im : Image) (x y : Z) : Prop :=
  0 <= x < fst (Image_size im) /\ 0 <= y < snd (Image_size im).


(** PIL's CLIP8: a sample is brought into 0..255. *)
Definition clip8 (v : Z) : Z := Z.max 0 (Z.min 255 v).

(** [Image.new('RGB', size, color)] for a tuple colour: three ints, or
    four of which the last has no band to go to, each clipped to 0..255;
    a tuple of another length raises TypeError. *)
Definition Image_new_RGB (size : Z * Z) (color : list Z) : exn + Image :=
  match color with
  | [r; g; b] | [r; g; b; _] =>
      inr (mkImage "RGB" size (map (fun (v : Z) (_ _ : Z) => clip8 v) [r; g; b]))
  | _ => inl TypeError
  end.

(** [im.split()]: one plane per band. *)
Definition Image_split (im : Image) : list band := Image_bands im.

(** Modelled from the spec: the per-channel blend of PIL's masked paste,
    which is not part of the repository:
    [round(background * (1 - a/255) + source * (a/255))]. *)
Definition blend (a background source : Z) : Z :=
  py_round (inject_Z background * (1 - inject_Z a / 255)
            + inject_Z source * (inject_Z a / 255))%Q.

(** The conversions of [im.convert(mode)] that [download_image] meets:
    to the mode the image already has, and from RGBA to RGB, which keeps the
    three colour planes and drops the alpha plane.  The other conversion
    matrices of PIL are a parameter. *)
Definition convert_bands (other : string -> string -> list band -> list band)
    (from to : string) (bs : list band) : list band :=
  if String.eqb from to then bs
  else if String.eqb from "RGBA" && String.eqb to "RGB" then take 3 bs
  else other from to bs.

Definition convert (other : string -> string -> list band -> list band)
    (im : Image) (mode : string) : Image :=
  mkImage mode (Image_size im) (convert_bands other (Image_mode im) mode (Image_bands im)).

(** The planes [dest.paste(src, ...)] takes from [src]: those of [src] as
    they are when it has the mode of [dest], or when [dest] is RGB and
    [src] is RGBA or RGBa; otherwise those of [src.convert(dest.mode)]. *)
Definition paste_planes (other : string -> string -> list band -> list band)
    (dest src : Image) : list band :=
  if String.eqb (Image_mode src) (Image_mode dest)
     || (String.eqb (Image_mode dest) "RGB"
         && (String.eqb (Image_mode src) "RGBA" || String.eqb (Image_mode src) "RGBa"))
  then Image_bands src
  else convert_bands other (Image_mode src) (Image_mode dest) (Image_bands src).

(** [dest.paste(src, mask=mask)] for images of one size: the planes taken
    from [src] are blended into the bands of [dest] through the mask, plane
    by plane. *)
Definition paste (other : string -> string -> list band -> list band)
    (dest src : Image) (mask : band) : Image :=
  mkImage (Image_mode dest) (Image_size dest)
    (zip_with (fun (d s : band) (x y : Z) => blend (mask x y) (d x y) (s x y))
       (Image_bands dest) (paste_planes other dest src)).

(** ** Fonts and text

    PIL's FreeType rasteriser is not part of the repository.  A loaded font
    measures a string ([getsize]) and gives for each character a coverage
    mask (0..255, relative to the pen) and the advance of the pen; a string
    is laid out character by character on one line. *)

Record ImageFont : Type := mkFont {
  getsize : string -> Z * Z;
  glyph : ascii -> band;
  advance : ascii -> Z
}.

Fixpoint text_mask (font : ImageFont) (text : string) : band :=
  match text with
  | EmptyString => fun _ _ => 0
  | String c r =>
      fun x y => Z.max (glyph font c x y) (text_mask font r (x - advance font c) y)
  end.

(** An ink gives one sample per band. *)
Definition ink : Type := nat -> Z.

(** The ink of the colour (r, g, b) on an RGB image. *)
Definition rgb_ink (r g b : Z) : ink :=
  fun k => nth k [clip8 r; clip8 g; clip8 b] 255.

(** The ink PIL makes of a fill tuple for an RGB image: three ints, or four
    of which the last, the alpha, has no band to go to; a tuple of another
    length raises TypeError. *)
Definition getink_RGB (fill : list Z) : exn + ink :=
  match fill with
  | [r; g; b] | [r; g; b; _] => inr (rgb_ink r g b)
  | _ => inl TypeError
  end.

(** The modes of one band on which a fill must be one number. *)
Definition single_band (mode : string) : bool :=
  String.eqb mode "1" || String.eqb mode "L" || String.eqb mode "I"
  || String.eqb mode "F".

(** The ink of a fresh [ImageDraw.Draw]: PIL takes [draw_ink(1)] for the
    modes "I" and "F" and [draw_ink(-1)], all bits set, for every other
    mode: white on an RGB image. *)
Definition default_ink (mode : string) : ink :=
  if String.eqb mode "I" || String.eqb mode "F" then fun _ => 1
  else fun _ => 255.

(** [int(v)] of a coordinate: towards zero. *)
Definition py_int (n : pynum) : Z :=
  match n with
  | PyInt z => z
  | PyFloat q => if Qle_bool 0 q then Qfloor q else Qceiling q
  end.

(** The bitmap of [text] blended in [i] onto the RGB image [im] with its
    top-left corner at [xy]: every band is blended alike. *)
Definition draw_bitmap (im : Image) (xy : pynum * pynum) (text : string)
    (font : ImageFont) (i : ink) : Image :=
  let x0 := py_int (fst xy) in
  let y0 := py_int (snd xy) in
  mkImage (Image_mode im) (Image_size im)
    (imap (fun (k : nat) (b : band) (x y : Z) =>
             blend (text_mask font text (x - x0) (y - y0)) (b x y) (i k))
       (Image_bands im)).

(** ** Crop-to-fill *)

Definition box : Type := (Q * Q * Q * Q)%type.

(** Modelled from the spec: the crop box of PIL's [ImageOps.fit], which is
    not part of the repository (section 4.2): with
    [sourceAspect = srcW/srcH] and [targetAspect = w/h], a wider source is
    cropped to the width [srcH*targetAspect], centred horizontally, and any
    other source to the height [srcW/targetAspect], centred vertically.
    The box is (left, top, right, bottom). *)
Definition fit_box (src target : Z * Z) : box :=
  let srcW := inject_Z (fst src) in
  let srcH := inject_Z (snd src) in
  let sourceAspect := (srcW / srcH)%Q in
  let targetAspect := (inject_Z (fst target) / inject_Z (snd target))%Q in
  if Qlt_le_dec targetAspect sourceAspect then
    let cropW := (srcH * targetAspect)%Q in
    let left := ((srcW - cropW) / 2)%Q in
    (left, 0%Q, (left + cropW)%Q, srcH)
  else
    let cropH := (srcW / targetAspect)%Q in
    let top := ((srcH - cropH) / 2)%Q in
    (0%Q, top, srcW, (top + cropH)%Q).

Definition box_width (b : box) : Q :=
  let '(l, _, r, _) := b in (r - l)%Q.
Definition box_height (b : box) : Q :=
  let '(_, t, _, d) := b in (d - t)%Q.

Inductive filter : Type := NEAREST | BILINEAR | BICUBIC | ANTIALIAS.

(** ** Effects

    Images are mutable objects: the heap maps an object to its current
    contents.  The log is what [logging] has been given, oldest first.  A
    call returns, raises, or leaves through [sys.exit]. *)

Inductive outcome (A : Type) : Type :=
| Return (a : A)
| Raise (e : exn)
| Exit (status : Z).
Arguments Return {A} a.
Arguments Raise {A} e.
Arguments Exit {A} status.

Inductive level : Type := DEBUG | INFO | ERROR.

Definition loc : Type := nat.

Record World : Type := mkWorld {
  heap : gmap nat Image;
  log : list (level * string)
}.

Definition M (A : Type) : Type := World -> outcome A * World.

#[global] Instance M_ret : MRet M := fun A a w => (Return a, w).

#[global] Instance M_bind : MBind M := fun A B f m w =>
  match m w with
  | (Return a, w') => f a w'
  | (Raise e, w') => (Raise e, w')
  | (Exit st, w') => (Exit st, w')
  end.

Definition raise {A : Type} (e : exn) : M A := fun w => (Raise e, w).

(** [sys.exit(status)] *)
Definition sys_exit {A : Type} (status : Z) : M A := fun w => (Exit status, w).

(** The result of a call into a library that may raise. *)
Definition lift {A : Type} (r : exn + A) : M A :=
  match r with
  | inl e => raise e
  | inr a => mret a
  end.

Definition logging (l : level) (msg : string) : M unit := fun w =>
  (Return tt, mkWorld (heap w) (log w ++ [(l, msg)])).

(** A new object, at a location the heap does not use. *)
Definition alloc (im : Image) : M loc := fun w =>
  let l := fresh (dom (heap w)) in
  (Return l, mkWorld (<[l := im]> (heap w)) (log w)).

(** Reads an object; a location is never used before it is allocated, and
    the model raises where one would be. *)
Definition deref (l : loc) : M Image := fun w =>
  match heap w !! l with
  | Some im => (Return im, w)
  | None => (Raise ValueError, w)
  end.

Definition assign (l : loc) (im : Image) : M unit := fun w =>
  (Return tt, mkWorld (<[l := im]> (heap w)) (log w)).

(** [try: body except IOError: handler] *)
Definition try_except_IOError {A : Type} (body handler : M A) : M A := fun w =>
  match body w with
  | (Raise IOError, w') => handler w'
  | r => r
  end.

(** The bytes of a response or of a packaged resource. *)
Definition Raw : Type := list Z.

(** An [ImageDraw.Draw] object: the image it draws on and its ink. *)
Record Draw : Type := mkDraw {
  Draw_image : loc;
  Draw_ink : ink
}.

(** [img.copy()] *)
Definition Image_copy (img : loc) : M loc :=
  im ← deref img; alloc im.

(** [ImageDraw.Draw(img)] *)
Definition ImageDraw_Draw (img : loc) : M Draw :=
  im ← deref img; mret (mkDraw img (default_ink (Image_mode im))).

Definition white : list Z := [255; 255; 255].

Section Externals.

(** What the program calls and does not define: the HTTP client, the
    decoder, the mode conversions other than RGBA to RGB, the resampling
    kernel, the packaged font file, the font loader, and what drawing a
    text leaves on an image whose mode is not RGB (the planes, or the
    exception). *)
Variable requests_get : string -> exn + Raw.
Variable Image_open : Raw -> exn + Image.
Variable convert_other : string -> string -> list band -> list band.
Variable resample : filter -> band -> box -> Z * Z -> band.
Variable resource_string : string -> string -> exn + Raw.
Variable ImageFont_truetype : Raw -> Z -> exn + ImageFont.
Variable draw_other :
  Image -> pynum * pynum -> string -> ImageFont -> option (list Z) -> exn + list band.

(** [img.convert(mode)]: a new image. *)
Definition Image_convert (img : loc) (mode : string) : M loc :=
  im ← deref img; alloc (convert convert_other im mode).

(** [draw.text(xy, text, font=font, fill=fill)]: draws into the image of
    the draw object.  The ink is made of the fill before anything is drawn.
    On an RGB image the fill must be a tuple of three or four ints and the
    bitmap of the text is blended in; with no fill the ink is the one of
    the draw object.  On an image of one band a fill tuple that is not one
    number raises TypeError, on a palette image a fill tuple raises
    ValueError. *)
Definition Draw_text (draw : Draw) (xy : pynum * pynum) (text : string)
    (font : ImageFont) (fill : option (list Z)) : M unit :=
  im ← deref (Draw_image draw);
  if String.eqb (Image_mode im) "RGB" then
    i ← lift (match fill with
              | Some f => getink_RGB f
              | None => inr (Draw_ink draw)
              end);
    assign (Draw_image draw) (draw_bitmap im xy text font i)
  else
    match fill with
    | Some f =>
        if single_band (Image_mode im) && negb (length f =? 1)%nat
        then raise TypeError
        else if String.eqb (Image_mode im) "P" then raise ValueError
        else mret tt
    | None => mret tt
    end;;
    planes ← lift (draw_other im xy text font fill);
    assign (Draw_image draw) (mkImage (Image_mode im) (Image_size im) planes).

(** [dest.paste(src, mask=mask)]: changes [dest] in place. *)
Definition Image_paste (dest src : loc) (mask : band) : M unit :=
  d ← deref dest; s ← deref src; assign dest (paste convert_other d s mask).

(** [pure_pil_alpha_to_color_v2(image, color)]; [image.load()] is the
    first read of the object, [Image.new] raises on a colour that is not a
    tuple of three or four, and [split()[3]] raises on an image with fewer
    than four bands. *)
Definition pure_pil_alpha_to_color_v2 (image : loc) (color : list Z) : M loc :=
  im ← deref image;
  new ← lift (Image_new_RGB (Image_size im) color);
  background ← alloc new;
  alpha ← lift (match Image_split im !! 3%nat with
                | Some a => inr a
                | None => inl IndexError
                end);
  Image_paste background image alpha;;
  mret background.

(** [download_image(url)]; [Image.open] stands for opening and decoding
    the stream. *)
Definition download_image (url : string) : M loc :=
  try_except_IOError
    (r ← lift (requests_get url);
     logging INFO ("Downloading " ++ url);;
     opened ← lift (Image_open r);
     img ← alloc opened;
     img ← Image_convert img "RGB";
     im ← deref img;
     img ← (if String.eqb (Image_mode im) "RGBA" then
              logging DEBUG "Removing alpha layer...";;
              pure_pil_alpha_to_color_v2 img white
            else mret img);
     mret img)
    (logging ERROR "Error downloading image!";;
     sys_exit 1).

(** [img.resize(size, method, box=box)] on the contents of an image. *)
Definition resize (im : Image) (size : Z * Z) (method : filter) (b : box) : Image :=
  mkImage (Image_mode im) size
    (map (fun p : band => resample method p b size) (Image_bands im)).

(** Modelled from the spec: PIL's [ImageOps.fit(img, size, method)], which
    is not part of the repository (section 4.2): the centred crop of
    [fit_box], resized to exactly [size]; a target or a source that is not
    positive is refused. *)
Definition ImageOps_fit (img : loc) (size : Z * Z) (method : filter) : M loc :=
  im ← deref img;
  if (fst size <=? 0) || (snd size <=? 0) then raise ValueError
  else if (fst (Image_size im) <=? 0) || (snd (Image_size im) <=? 0)
  then raise ZeroDivisionError
  else alloc (resize im size method (fit_box (Image_size im) size)).

(** [resize_image(img, width, height)] *)
Definition resize_image (img : loc) (width height : Z) : M loc :=
  logging DEBUG "Resizing the downloaded wallpaper...";;
  ImageOps_fit img (width, height) ANTIALIAS.

(** [set_image_title(img, title, gravity, padding, fontsize)] *)
Definition set_image_title (img : loc) (title gravity : string)
    (padding : Z * Z) (fontsize : Z) : M loc :=
  logging DEBUG "Setting title";;
  let title := remove_tags title in
  let gravity := normalize_gravity gravity in
  ret_img ← Image_copy img;
  draw ← ImageDraw_Draw ret_img;
  font_bytes ← lift (resource_string "wpreddit.download" "fonts/Cantarell-Regular.otf");
  font ← lift (ImageFont_truetype font_bytes fontsize);
  let text_x := fst (getsize font title) in
  let text_y := snd (getsize font title) in
  ret_im ← deref ret_img;
  let title_top_left_x :=
    title_top_left_x gravity (fst (Image_size ret_im)) text_x (fst padding) in
  let title_top_left_y :=
    title_top_left_y gravity (snd (Image_size ret_im)) text_y (snd padding) in
  Draw_text draw (py_add title_top_left_x 2, py_add title_top_left_y 2)
    title font (Some [0; 0; 0; 127]);;
  Draw_text draw (title_top_left_x, title_top_left_y) title font None;;
  mret ret_img.

(** Modelled from the spec: the pipeline that calls the three stages one
    after the other (section 4.5); its code is not part of the
    repository. *)
Definition compose (url : string) (target : Z * Z) (title gravity : string)
    (padding : Z * Z) (fontsize : Z) : M loc :=
  img ← download_image url;
  img ← resize_image img (fst target) (snd target);
  set_image_title img title gravity padding fontsize.

End Externals.

(** ** [save_info]

    The files the program writes, as a map from the path given to [open]
    to the text of the file.  Whether a path can be opened for writing and
    whether a text can be encoded for the file are the system's to say. *)

(** [with open(path, 'w') as f: f.write(text)]: opening raises when the
    path cannot be opened and truncates the file otherwise; writing raises
    when the text cannot be encoded, and the file stays empty. *)
Definition write_text (openable encodable : string -> bool) (path text : string)
    (fs : gmap string string) : outcome unit * gmap string string :=
  if openable path then
    if encodable text then (Return tt, <[path := text]> fs)
    else (Raise ValueError, <[path := ""]> fs)
  else (Raise IOError, fs).

(** [save_info(basepath, url, title, permalink)] *)
Definition save_info (openable encodable : string -> bool)
    (basepath url title permalink : string)
    (fs : gmap string string) : outcome unit * gmap string string :=
  match write_text openable encodable (basepath ++ "/url.txt") url fs with
  | (Return _, fs1) =>
      match write_text openable encodable (basepath ++ "/title.txt") title fs1 with
      | (Return _, fs2) =>
          write_text openable encodable (basepath ++ "/permalink.txt") permalink fs2
      | r => r
      end
  | r => r
  end.

(** A system on which every path opens and every text is encoded, and one
    on which only [url.txt] opens. *)
Definition always : string -> bool := fun _ => true.
Definition only_url : string -> bool := fun p => String.eqb p "/tmp/wp/url.txt".

(** ** Vocabulary of the statements *)

(** Some character of [s] satisfies [p]. *)
Fixpoint has (p : ascii -> bool) (s : string) : bool :=
  match s with
  | EmptyString => false
  | String c r => p c || has p r
  end.

(** The part of [s] before its first line break. *)
Fixpoint first_line (s : string) : string :=
  match s with
  | EmptyString => EmptyString
  | String c r => if is_newline c then EmptyString else String c (first_line r)
  end.

(** No tag starts anywhere in [s]: every opening bracket has no closing
    bracket after it on its line. *)
Fixpoint no_tag (s : string) : bool :=
  match s with
  | EmptyString => true
  | String c r =>
      (negb (is_open c) || negb (has is_close (first_line r))) && no_tag r
  end.

(** [out] is [s] without its tags, read from the left: a tag runs from an
    opening bracket to the first closing bracket after it and holds no line
    break; an opening bracket with no closing bracket on its line stays, as
    does every other character. *)
Inductive TagsRemoved : string -> string -> Prop :=
| TR_nil : TagsRemoved "" ""
| TR_tag (o : ascii) (body : string) (c : ascii) (rest out : string) :
    is_open o = true ->
    has is_close body = false ->
    has is_newline body = false ->
    is_close c = true ->
    TagsRemoved rest out ->
    TagsRemoved (String o (body ++ String c rest)) out
| TR_keep (c : ascii) (rest out : string) :
    is_open c = false ->
    TagsRemoved rest out ->
    TagsRemoved (String c rest) (String c out)
| TR_open (c : ascii) (rest out : string) :
    is_open c = true ->
    has is_close (first_line rest) = false ->
    TagsRemoved rest out ->
    TagsRemoved (String c rest) (String c out).

(** Two spaces in a row somewhere in [s]. *)
Fixpoint double_space (s : string) : bool :=
  match s with
  | String c ((String c' _) as r) => (is_sp c && is_sp c') || double_space r
  | _ => false
  end.

Definition first_char (s : string) : option ascii :=
  match s with
  | EmptyString => None
  | String c _ => Some c
  end.

Fixpoint last_char (s : string) : option ascii :=
  match s with
  | EmptyString => None
  | String c EmptyString => Some c
  | String _ r => last_char r
  end.

(** The claim's reading of the deletion: every bracketed substring, line
    break or not. *)
Definition deletes_every_bracketed_substring : Prop :=
  forall (o : ascii) (body : string) (c : ascii) (rest : string),
    is_open o = true -> has is_close body = false -> is_close c = true ->
    sub_tags (String o (body ++ String c rest)) = sub_tags rest.

(** The specification's normalisation of a gravity string: lowercase,
    every whitespace character removed. *)
Fixpoint remove_whitespace (s : string) : string :=
  match s with
  | EmptyString => EmptyString
  | String c r =>
      if PyStr.isspace c then remove_whitespace r
      else String c (remove_whitespace r)
  end.

Definition normalize_gravity_spec (gravity : string) : string :=
  remove_whitespace (PyStr.lower gravity).

Definition horizontal_spec (gravity : string) : hanchor :=
  let g := normalize_gravity_spec gravity in
  if PyStr.contains "left" g then Left
  else if PyStr.contains "right" g then Right else HCenter.

Definition vertical_spec (gravity : string) : vanchor :=
  let g := normalize_gravity_spec gravity in
  if PyStr.contains "top" g then Top
  else if PyStr.contains "bottom" g then Bottom else VCenter.

(** A tab inside the word. *)
Definition le_tab_ft : string := "le" ++ String "009" "ft".

(** A bracketed pair around a line break. *)
Definition two_line_tag : string := "[a" ++ String "010" "b]".

(** An upper-case letter of [str.lower]. *)
Definition is_upper (c : ascii) : bool :=
  negb (Ascii.eqb (PyStr.lower_char c) c).

(** ** Sample objects *)

(** Two pixels of one colour, the left one transparent, the right one
    opaque. *)
Definition sample_rgba : Image :=
  mkImage "RGBA" (2, 1)
    [(fun _ _ => 10); (fun _ _ => 20); (fun _ _ => 30);
     (fun x _ => if x =? 0 then 0 else 255)].

Definition sample_rgb : Image :=
  mkImage "RGB" (64, 32) [(fun _ _ => 10); (fun _ _ => 20); (fun _ _ => 30)].

(** A heap with one image, at location 0. *)
Definition world_of (im : Image) : World := mkWorld {[ 0%nat := im ]} [].

(** The stages of the pipeline. *)
Inductive stage : Type := Fetch | Decode | Flatten | Fit | Render.

(** The claim's reading of a typed error: the failing stage can be read off
    what [download_image] gives its caller. *)
Definition identifies_failing_stage (identify : outcome loc -> stage) : Prop :=
  forall (requests_get : string -> exn + Raw) (Image_open : Raw -> exn + Image)
         (convert_other : string -> string -> list band -> list band)
         (url : string) (w : World),
    (forall e, requests_get url = inl e ->
       identify (fst (download_image requests_get Image_open convert_other url w)) = Fetch) /\
    (forall r e, requests_get url = inr r -> Image_open r = inl e ->
       identify (fst (download_image requests_get Image_open convert_other url w)) = Decode).

(** The point at which [set_image_title] puts the title on [im]. *)
Definition title_point (im : Image) (font : ImageFont) (title gravity : string)
    (padding : Z * Z) : pynum * pynum :=
  (title_top_left_x (normalize_gravity gravity) (fst (Image_size im))
     (fst (getsize font (remove_tags title))) (fst padding),
   title_top_left_y (normalize_gravity gravity) (snd (Image_size im))
     (snd (getsize font (remove_tags title))) (snd padding)).


(** What the two [draw.text] calls of [set_image_title] leave on the RGB
    image [im]. *)
Definition caption_drawn (im : Image) (xy : pynum * pynum) (text : string)
    (font : ImageFont) : Image :=
  draw_bitmap
    (draw_bitmap im (py_add (fst xy) 2, py_add (snd xy) 2) text font
       (rgb_ink 0 0 0))
    xy text font (default_ink (Image_mode im)).

(** Samples of what the program calls. *)
Definition get_ok : string -> exn + Raw := fun _ => inr [137; 80; 78; 71].
Definition get_fails : string -> exn + Raw := fun _ => inl IOError.
Definition open_rgba : Raw -> exn + Image := fun _ => inr sample_rgba.
Definition open_fails : Raw -> exn + Image := fun _ => inl IOError.
Definition open_rgb : Raw -> exn + Image := fun _ => inr sample_rgb.
Definition no_conversion : string -> string -> list band -> list band :=
  fun _ _ bs => bs.

(** Nearest neighbour: the sample under the centre of the target pixel. *)
Definition nearest : filter -> band -> box -> Z * Z -> band :=
  fun _ p b size x y =>
    let '(l, t, _, _) := b in
    p (Qfloor (l + (inject_Z x + (1 # 2)) * box_width b / inject_Z (fst size))%Q)
      (Qfloor (t + (inject_Z y + (1 # 2)) * box_height b / inject_Z (snd size))%Q).

(** A font of solid 8 by 10 blocks. *)
Definition block_font : ImageFont :=
  mkFont (fun s => (8 * Z.of_nat (String.length s), 10))
         (fun _ x y =>
            if (0 <=? x) && (x <? 8) && (0 <=? y) && (y <? 10) then 255 else 0)
         (fun _ => 8).

(** Drawing that leaves the planes as they are. *)
Definition draw_nothing :
  Image -> pynum * pynum -> string -> ImageFont -> option (list Z) -> exn + list band :=
  fun im _ _ _ _ => inr (Image_bands im).


(** Red grows to the right, green grows downwards. *)
Definition sample_gradient : Image :=
  mkImage "RGB" (400, 300) [(fun x _ => x); (fun _ y => y); (fun _ _ => 0)].

(** [m] leaves the object at [l] as it is, whatever it does. *)
Definition keeps {A : Type} (l : loc) (m : M A) : Prop :=
  forall w : World, heap (snd (m w)) !! l = heap w !! l.

Definition resource_ok : string -> string -> exn + Raw := fun _ _ => inr [79; 84; 84; 79].
Definition truetype_ok : Raw -> Z -> exn + ImageFont :=
  fun _ size => if size <=? 0 then inl ValueError else inr block_font.


(** Whitespace other than the space character. *)
Definition is_odd_space (c : ascii) : bool := PyStr.isspace c && negb (is_sp c).

(* ================================================================= *)
(** * Properties *)

(** ** Strings *)

Lemma find_close_Some (r r' : string) :
  find_close r = Some r' ->
  exists (body : string) (c : ascii),
    r = body ++ String c r' /\ has is_close body = false /\
    has is_newline body = false /\ is_close c = true /\
    (String.length r' < String.length r)%nat.
Proof.
  revert r'. induction r as [|a r IH]; intros r' H; simpl in H; [discriminate|].
  destruct (is_close a) eqn:Ec.
  - injection H as <-. exists EmptyString, a. simpl. repeat split; auto.
  - destruct (is_newline a) eqn:En; [discriminate|].
    destruct (IH _ H) as (body & c & -> & Hb & Hn & Hc & Hl).
    exists (String a body), c. simpl. rewrite Ec, En. simpl.
    repeat split; auto; lia.
Qed.

Lemma find_close_None (r : string) :
  find_close r = None <-> has is_close (first_line r) = false.
Proof.
  induction r as [|a r IH]; simpl; [tauto|].
  destruct (is_close a) eqn:Ec.
  - assert (is_newline a = false) as ->.
    { unfold is_close, is_newline in *.
      destruct (Ascii.eqb_spec a "010"); [subst; discriminate|reflexivity]. }
    simpl. rewrite Ec. simpl. split; discriminate.
  - destruct (is_newline a); simpl; [tauto|]. rewrite Ec. simpl. exact IH.
Qed.

Lemma sub_tags_fuel_removed (n : nat) (s : string) :
  (String.length s <= n)%nat -> TagsRemoved s (sub_tags_fuel n s).
Proof.
  revert s. induction n as [|n IH]; intros s Hlen.
  - destruct s; simpl in *; [constructor|lia].
  - destruct s as [|c r]; simpl in *; [constructor|].
    destruct (is_open c) eqn:Eo.
    + destruct (find_close r) as [r'|] eqn:Ef.
      * destruct (find_close_Some _ _ Ef) as (body & d & -> & Hb & Hn & Hd & Hl).
        apply TR_tag; auto. apply IH. lia.
      * apply TR_open; auto; [now apply find_close_None|]. apply IH. lia.
    + apply TR_keep; auto. apply IH. lia.
Qed.

Lemma sub_tags_fuel_no_tag (n : nat) (s : string) :
  no_tag s = true -> sub_tags_fuel n s = s.
Proof.
  revert s. induction n as [|n IH]; intros s H; [reflexivity|].
  destruct s as [|c r]; simpl in *; [reflexivity|].
  apply andb_true_iff in H as [H1 H2].
  destruct (is_open c) eqn:Eo; [|now rewrite IH].
  simpl in H1. apply negb_true_iff, find_close_None in H1.
  rewrite H1. now rewrite IH.
Qed.

Lemma collapse_spaces_cons (c c' : ascii) (r : string) :
  collapse_spaces (String c (String c' r)) =
  if is_sp c then
    if is_sp c' then collapse_spaces (String c' r)
    else String c (collapse_spaces (String c' r))
  else String c (collapse_spaces (String c' r)).
Proof. reflexivity. Qed.

Lemma collapse_spaces_head (s : string) :
  option_map is_sp (first_char (collapse_spaces s)) = option_map is_sp (first_char s).
Proof.
  induction s as [|c r IH]; [reflexivity|].
  destruct r as [|c' r'].
  - simpl. destruct (is_sp c) eqn:Ec; simpl; now rewrite ?Ec.
  - rewrite collapse_spaces_cons.
    destruct (is_sp c) eqn:Ec; [destruct (is_sp c') eqn:Ec'|].
    + rewrite IH. cbn. now rewrite Ec, Ec'.
    + cbn. reflexivity.
    + cbn. reflexivity.
Qed.

Lemma double_space_cons (c d : ascii) (t : string) :
  double_space (String c (String d t)) =
  (is_sp c && is_sp d) || double_space (String d t).
Proof. reflexivity. Qed.

Lemma collapse_spaces_single (s : string) :
  double_space (collapse_spaces s) = false.
Proof.
  induction s as [|c r IH]; [reflexivity|].
  destruct r as [|c' r'].
  - simpl. now destruct (is_sp c).
  - pose proof (collapse_spaces_head (String c' r')) as Hh.
    rewrite collapse_spaces_cons.
    destruct (collapse_spaces (String c' r')) as [|d t] eqn:Et.
    + now destruct (is_sp c), (is_sp c').
    + cbn in Hh. injection Hh as Hd.
      destruct (is_sp c) eqn:Ec; [destruct (is_sp c') eqn:Ec'|]; auto;
        rewrite double_space_cons, ?Ec, ?Hd, ?andb_false_r; exact IH.
Qed.

Lemma collapse_spaces_keeps (s : string) :
  PyStr.remove_char " " (collapse_spaces s) = PyStr.remove_char " " s.
Proof.
  induction s as [|c r IH]; [reflexivity|].
  destruct r as [|c' r'].
  - simpl. now destruct (is_sp c).
  - rewrite collapse_spaces_cons.
    assert (Hc : forall t, PyStr.remove_char " " (String c t) =
                           if is_sp c then PyStr.remove_char " " t
                           else String c (PyStr.remove_char " " t)) by reflexivity.
    rewrite (Hc (String c' r')).
    destruct (is_sp c) eqn:Ec; [destruct (is_sp c') eqn:Ec'|];
      rewrite ?Hc, ?Ec; rewrite IH; reflexivity.
Qed.

Lemma lstrip_head (s : string) (c : ascii) :
  first_char (PyStr.lstrip s) = Some c -> PyStr.isspace c = false.
Proof.
  induction s as [|a r IH]; simpl; [discriminate|].
  destruct (PyStr.isspace a) eqn:Ea; [exact IH|].
  simpl. now intros [= <-].
Qed.

Lemma rstrip_head (s : string) (c : ascii) :
  first_char (PyStr.rstrip s) = Some c -> first_char s = Some c.
Proof.
  destruct s as [|a r]; simpl; [discriminate|].
  destruct (PyStr.rstrip r); [destruct (PyStr.isspace a)|]; simpl; congruence.
Qed.

Lemma rstrip_last (s : string) (c : ascii) :
  last_char (PyStr.rstrip s) = Some c -> PyStr.isspace c = false.
Proof.
  induction s as [|a r IH]; simpl; [discriminate|].
  destruct (PyStr.rstrip r) as [|b t] eqn:Er.
  - destruct (PyStr.isspace a) eqn:Ea; simpl; [discriminate|]. now intros [= <-].
  - intros H. apply IH. exact H.
Qed.

Lemma strip_trimmed (s : string) :
  (forall c, first_char (PyStr.strip s) = Some c -> PyStr.isspace c = false) /\
  (forall c, last_char (PyStr.strip s) = Some c -> PyStr.isspace c = false).
Proof.
  unfold PyStr.strip. split; intros c H.
  - apply rstrip_head in H. now apply lstrip_head in H.
  - now apply rstrip_last in H.
Qed.

Lemma has_lstrip (p : ascii -> bool) (s : string) :
  has p s = false -> has p (PyStr.lstrip s) = false.
Proof.
  induction s as [|c r IH]; simpl; [auto|].
  intros H. apply orb_false_iff in H as [Hc Hr].
  destruct (PyStr.isspace c); [auto|]. simpl. now rewrite Hc, Hr.
Qed.

Lemma has_rstrip (p : ascii -> bool) (s : string) :
  has p s = false -> has p (PyStr.rstrip s) = false.
Proof.
  induction s as [|c r IH]; simpl; [auto|].
  intros H. apply orb_false_iff in H as [Hc Hr]. specialize (IH Hr).
  destruct (PyStr.rstrip r).
  - destruct (PyStr.isspace c); simpl; [reflexivity|now rewrite Hc].
  - simpl in *. now rewrite Hc, IH.
Qed.

Lemma has_strip (p : ascii -> bool) (s : string) :
  has p s = false -> has p (PyStr.strip s) = false.
Proof. intros H. unfold PyStr.strip. now apply has_rstrip, has_lstrip. Qed.

Lemma has_remove_char_other (p : ascii -> bool) (old : ascii) (s : string) :
  has p s = false -> has p (PyStr.remove_char old s) = false.
Proof.
  induction s as [|c r IH]; simpl; [auto|].
  intros H. apply orb_false_iff in H as [Hc Hr].
  destruct (Ascii.eqb c old); simpl; [auto|]. now rewrite Hc, IH.
Qed.

Lemma has_remove_char (s : string) :
  has is_sp (PyStr.remove_char " " s) = false.
Proof.
  induction s as [|c r IH]; simpl; [reflexivity|].
  destruct (Ascii.eqb c " ") eqn:Ec; [exact IH|].
  simpl. unfold is_sp at 1. now rewrite Ec.
Qed.

Lemma lower_char_idem (c : ascii) :
  PyStr.lower_char (PyStr.lower_char c) = PyStr.lower_char c.
Proof. destruct c as [[] [] [] [] [] [] [] []]; reflexivity. Qed.

Lemma has_upper_lower (s : string) : has is_upper (PyStr.lower s) = false.
Proof.
  induction s as [|c r IH]; simpl; [reflexivity|].
  rewrite IH, orb_false_r. unfold is_upper.
  now rewrite lower_char_idem, Ascii.eqb_refl.
Qed.


Lemma no_open_no_tag (s : string) : has is_open s = false -> no_tag s = true.
Proof.
  induction s as [|c r IH]; [auto|].
  intros H. cbn [has] in H. apply orb_false_iff in H as [Hc Hr].
  cbn [no_tag]. now rewrite Hc, IH.
Qed.





Lemma lower_char_space (c : ascii) :
  PyStr.isspace (PyStr.lower_char c) = PyStr.isspace c /\
  is_sp (PyStr.lower_char c) = is_sp c.
Proof. destruct c as [[] [] [] [] [] [] [] []]; split; reflexivity. Qed.

Lemma has_odd_space_lower (s : string) :
  has is_odd_space (PyStr.lower s) = has is_odd_space s.
Proof.
  induction s as [|c r IH]; [reflexivity|].
  cbn [PyStr.lower has]. rewrite IH. unfold is_odd_space.
  now destruct (lower_char_space c) as [-> ->].
Qed.

Lemma remove_spaces_is_remove_whitespace (s : string) :
  has is_odd_space s = false ->
  PyStr.remove_char " " s = remove_whitespace s.
Proof.
  induction s as [|c r IH]; [auto|].
  cbn [has]. intros H. apply orb_false_iff in H as [Hc Hr].
  cbn [PyStr.remove_char remove_whitespace]. rewrite (IH Hr).
  unfold is_odd_space, is_sp in Hc.
  destruct (Ascii.eqb_spec c " ") as [->|Hne]; [reflexivity|].
  rewrite andb_true_r in Hc. now rewrite Hc.
Qed.

Lemma has_remove_whitespace (s : string) :
  has PyStr.isspace (remove_whitespace s) = false.
Proof.
  induction s as [|c r IH]; [reflexivity|].
  cbn [remove_whitespace]. destruct (PyStr.isspace c) eqn:Ec; [exact IH|].
  cbn [has]. now rewrite Ec, IH.
Qed.

Lemma strip_inkonly (s : string) :
  has PyStr.isspace s = false -> PyStr.strip s = s.
Proof.
  intros H. unfold PyStr.strip.
  assert (Hl : PyStr.lstrip s = s).
  { destruct s as [|c r]; [reflexivity|]. cbn [has] in H.
    apply orb_false_iff in H as [Hc _]. simpl. now rewrite Hc. }
  rewrite Hl. clear Hl.
  induction s as [|c r IH]; [reflexivity|].
  cbn [has] in H. apply orb_false_iff in H as [Hc Hr].
  cbn [PyStr.rstrip]. rewrite (IH Hr).
  destruct r; [now rewrite Hc|reflexivity].
Qed.

(** On a gravity string whose only whitespace is the space character the
    normalisation is the one of the specification. *)
Lemma normalize_gravity_spaces_only (gravity : string) :
  has is_odd_space gravity = false ->
  normalize_gravity gravity = normalize_gravity_spec gravity.
Proof.
  intros H. unfold normalize_gravity, normalize_gravity_spec.
  rewrite remove_spaces_is_remove_whitespace by now rewrite has_odd_space_lower.
  apply strip_inkonly, has_remove_whitespace.
Qed.

(** C4 (amended).  For every input string, tag removal deletes, from the
    left, each substring that runs from an opening bracket '[', '(' or '<'
    to the first closing bracket ']', ')' or '>' after it on the same line
    (the substring holds no line break); an opening bracket that has no
    closing bracket after it on its line stays in place, and a string in
    which no tag starts is unchanged.  Runs of spaces are then collapsed to
    one space (only spaces are dropped) and leading and trailing whitespace
    is trimmed.  "My Title [HD] (2020)" maps to "My Title" and
    "<tag>Mixed[x](y)  spacing" maps to "Mixed spacing". *)
Theorem remove_tags_removes_tags (s : string) :
  TagsRemoved s (sub_tags s) /\
  (no_tag s = true -> sub_tags s = s) /\
  remove_tags s = PyStr.strip (collapse_spaces (sub_tags s)) /\
  double_space (collapse_spaces (sub_tags s)) = false /\
  PyStr.remove_char " " (collapse_spaces (sub_tags s)) =
    PyStr.remove_char " " (sub_tags s) /\
  (forall c, first_char (remove_tags s) = Some c -> PyStr.isspace c = false) /\
  (forall c, last_char (remove_tags s) = Some c -> PyStr.isspace c = false) /\
  remove_tags "My Title [HD] (2020)" = "My Title" /\
  remove_tags "<tag>Mixed[x](y)  spacing" = "Mixed spacing".
Proof.
  split; [apply sub_tags_fuel_removed; lia|].
  split; [apply sub_tags_fuel_no_tag|].
  split; [reflexivity|].
  split; [apply collapse_spaces_single|].
  split; [apply collapse_spaces_keeps|].
  split; [apply strip_trimmed|].
  split; [apply strip_trimmed|].
  split; reflexivity.
Qed.

Lemma remove_tags_removes_tags_witness :
  no_tag "a ] b [ c" = true /\ sub_tags "a ] b [ c" = "a ] b [ c".
Proof.
  split; [reflexivity|].
  apply (proj1 (proj2 (remove_tags_removes_tags "a ] b [ c"))). reflexivity.
Defined.

(** C4 as stated fails: a bracketed substring that spans a line break is
    not deleted, since [.] does not match a line break. *)
Lemma remove_tags_keeps_two_line_tag :
  remove_tags two_line_tag = two_line_tag /\
  ~ deletes_every_bracketed_substring.
Proof.
  split; [reflexivity|].
  intros H.
  specialize (H "["%char ("a" ++ String "010" "b") "]"%char EmptyString
                eq_refl eq_refl eq_refl).
  vm_compute in H. discriminate H.
Qed.

(** ** Gravity *)

(** C5 (amended).  For every gravity string, the parser normalizes it to
    lowercase with every space character removed and leading and trailing
    whitespace stripped (whitespace other than the space inside the string
    is kept), then picks the horizontal anchor by substring membership,
    "left" before "right" (first match wins, neither means center), and
    independently the vertical anchor, "top" before "bottom" (neither means
    center).  When the only whitespace of the string is the space character,
    this is lowercase with all whitespace removed. *)
Theorem gravity_anchor_parsing (gravity : string) :
  let g := normalize_gravity gravity in
  g = PyStr.strip (PyStr.remove_char " " (PyStr.lower gravity)) /\
  has is_sp g = false /\
  has is_upper g = false /\
  (forall c, first_char g = Some c -> PyStr.isspace c = false) /\
  (forall c, last_char g = Some c -> PyStr.isspace c = false) /\
  horizontal gravity =
    (if PyStr.contains "left" g then Left
     else if PyStr.contains "right" g then Right else HCenter) /\
  vertical gravity =
    (if PyStr.contains "top" g then Top
     else if PyStr.contains "bottom" g then Bottom else VCenter) /\
  (has is_odd_space gravity = false -> g = normalize_gravity_spec gravity) /\
  horizontal "right left" = Left /\
  vertical "bottom top" = Top /\
  horizontal "TopLeft" = Left /\ vertical "TopLeft" = Top.
Proof.
  cbv zeta. unfold normalize_gravity.
  split; [reflexivity|].
  split; [apply has_strip, has_remove_char|].
  split; [apply has_strip, has_remove_char_other, has_upper_lower|].
  split; [apply strip_trimmed|].
  split; [apply strip_trimmed|].
  split; [reflexivity|]. split; [reflexivity|].
  split; [apply normalize_gravity_spaces_only|].
  repeat split; reflexivity.
Qed.

Lemma gravity_anchor_parsing_witness :
  normalize_gravity " Bottom  RIGHT " = normalize_gravity_spec " Bottom  RIGHT ".
Proof.
  apply (gravity_anchor_parsing " Bottom  RIGHT "). reflexivity.
Defined.

(** C5 as stated fails: a tab is whitespace and is not removed, so the
    word around it is not recognised. *)
Lemma gravity_keeps_inner_tab :
  horizontal le_tab_ft = HCenter /\ horizontal_spec le_tab_ft = Left /\
  ~ (forall gravity : string,
       normalize_gravity gravity = normalize_gravity_spec gravity).
Proof.
  split; [reflexivity|]. split; [reflexivity|].
  intros H. specialize (H le_tab_ft). vm_compute in H. discriminate H.
Qed.

(** C1.  For every glyph extent, canvas size and padding the resolved
    top-left coordinate follows the anchor formulas: left gives px, right
    gives cw - gw - px, horizontal center gives (cw - gw) / 2; top gives py,
    bottom gives ch - gh - py, vertical center gives (ch - gh) / 2.
    "BOTTOM right" with extent (50,20), canvas (200,100), padding (10,10)
    gives (140, 70); "center" with padding (0,0) gives a point equal to
    (75, 40); "banana" resolves to the center of both axes.  Nothing is
    clamped: a coordinate can be negative or beyond the canvas. *)
Theorem resolve_anchor_formulas (gravity : string) (gw gh cw ch px py : Z) :
  let xy := resolve gravity (gw, gh) (cw, ch) (px, py) in
  fst xy = match horizontal gravity with
           | Left => PyInt px
           | Right => PyInt (cw - gw - px)
           | HCenter => PyFloat (inject_Z (cw - gw) / 2)
           end /\
  snd xy = match vertical gravity with
           | Top => PyInt py
           | Bottom => PyInt (ch - gh - py)
           | VCenter => PyFloat (inject_Z (ch - gh) / 2)
           end /\
  resolve "BOTTOM right" (50, 20) (200, 100) (10, 10) = (PyInt 140, PyInt 70) /\
  py_eq (fst (resolve "center" (50, 20) (200, 100) (0, 0))) (PyInt 75) /\
  py_eq (snd (resolve "center" (50, 20) (200, 100) (0, 0))) (PyInt 40) /\
  horizontal "banana" = HCenter /\ vertical "banana" = VCenter /\
  Qlt (value (fst (resolve "right" (300, 20) (200, 100) (10, 10)))) 0 /\
  Qlt (inject_Z 200) (value (fst (resolve "left" (50, 20) (200, 100) (500, 10)))).
Proof.
  cbv zeta. unfold resolve, horizontal, vertical, title_top_left_x,
    title_top_left_y, truediv. cbn [fst snd].
  split.
  { destruct (PyStr.contains "left" _); [reflexivity|].
    destruct (PyStr.contains "right" _); reflexivity. }
  split.
  { destruct (PyStr.contains "top" _); [reflexivity|].
    destruct (PyStr.contains "bottom" _); reflexivity. }
  repeat split; vm_compute; congruence.
Qed.

(** ** The heap *)

Lemma fresh_unused (h : gmap nat Image) : h !! fresh (dom h) = None.
Proof. apply not_elem_of_dom, is_fresh. Qed.

Lemma fresh_other (h : gmap nat Image) (l : loc) (im : Image) :
  h !! l = Some im -> fresh (dom h) <> l.
Proof. intros H E. rewrite <- E, fresh_unused in H. discriminate. Qed.

Lemma alloc_keeps (h : gmap nat Image) (l : loc) (im new : Image) :
  h !! l = Some im -> <[fresh (dom h) := new]> h !! l = Some im.
Proof.
  intros H. rewrite lookup_insert_ne; [exact H|]. eapply fresh_other, H.
Qed.

(** ** Rounding and blending *)

Lemma py_round_compat (p q : Q) : (p == q)%Q -> py_round p = py_round q.
Proof.
  intros E. unfold py_round. rewrite (Qfloor_comp _ _ E).
  assert (Hc : ((p - inject_Z (Qfloor q)) ?= 1 # 2)%Q =
               ((q - inject_Z (Qfloor q)) ?= 1 # 2)%Q) by now rewrite E.
  now rewrite Hc.
Qed.

Lemma py_round_Z (z : Z) : py_round (inject_Z z) = z.
Proof.
  unfold py_round. rewrite Qfloor_Z.
  assert (Hc : ((inject_Z z - inject_Z z) ?= 1 # 2)%Q = Lt).
  { apply (proj1 (Qlt_alt _ _)).
    unfold Qlt, Qminus, Qplus, Qopp, inject_Z. simpl. lia. }
  now rewrite Hc.
Qed.

Lemma blend_transparent (background source : Z) : blend 0 background source = background.
Proof.
  unfold blend. rewrite <- (py_round_Z background) at 2.
  apply py_round_compat. unfold inject_Z at 2 4. field.
Qed.

Lemma blend_opaque (background source : Z) : blend 255 background source = source.
Proof.
  unfold blend. rewrite <- (py_round_Z source) at 2.
  apply py_round_compat. unfold inject_Z at 2 4. field.
Qed.

(** The rounded blend in integer arithmetic: a tie cannot occur, since
    255 is odd. *)
Lemma blend_integer (a background source : Z) :
  blend a background source =
  (2 * (background * (255 - a) + source * a) + 255) / 510.
Proof.
  unfold blend.
  set (n := background * (255 - a) + source * a).
  rewrite (py_round_compat _ (n # 255)).
  2:{ unfold n, Qeq, Qdiv, Qmult, Qplus, Qminus, Qopp, Qinv, inject_Z.
      simpl. rewrite !Pos2Z.inj_mul. ring. }
  unfold py_round. cbn [Qfloor].
  pose proof (Z.div_mod n 255 ltac:(lia)) as Hdm.
  pose proof (Z.mod_pos_bound n 255 ltac:(lia)) as Hm.
  set (f := n / 255) in *. set (m := n mod 255) in *.
  destruct (Z.compare_spec (2 * m) 255) as [E|L|G]; [lia| |].
  - assert (Hc : ((n # 255) - inject_Z f ?= 1 # 2)%Q = Lt).
    { apply (proj1 (Qlt_alt _ _)).
      unfold Qlt, Qminus, Qplus, Qopp, inject_Z. simpl. lia. }
    rewrite Hc.
    apply (Z.div_unique _ 510 f (2 * m + 255)); lia.
  - assert (Hc : ((n # 255) - inject_Z f ?= 1 # 2)%Q = Gt).
    { apply (proj1 (Qgt_alt _ _)).
      unfold Qlt, Qminus, Qplus, Qopp, inject_Z. simpl. lia. }
    rewrite Hc.
    apply (Z.div_unique _ 510 (f + 1) (2 * m - 255)); lia.
Qed.

(** ** Alpha flattening *)

Lemma clip8_byte (v : Z) : 0 <= v <= 255 -> clip8 v = v.
Proof. unfold clip8. lia. Qed.

(** C2.  For every RGBA image and every background colour of three bytes,
    [pure_pil_alpha_to_color_v2] returns a new RGB image of the same width
    and height in which every channel of every pixel is
    round(background * (1 - a/255) + source * (a/255)); where the alpha
    plane is 0 the pixel is exactly the background colour, where it is 255
    exactly the source colour, and so everywhere when the alpha plane takes
    only these two values.  The default background is white. *)
Theorem alpha_flattener_pixels
    (convert_other : string -> string -> list band -> list band)
    (w : World) (image : loc) (im : Image)
    (r g b a : band) (cr cg cb : Z) :
  heap w !! image = Some im ->
  Image_mode im = "RGBA" ->
  Image_bands im = [r; g; b; a] ->
  0 <= cr <= 255 -> 0 <= cg <= 255 -> 0 <= cb <= 255 ->
  exists (background : loc) (out : Image) (w' : World),
    pure_pil_alpha_to_color_v2 convert_other image [cr; cg; cb] w =
      (Return background, w') /\
    heap w !! background = None /\
    heap w' !! background = Some out /\
    Image_mode out = "RGB" /\
    Image_size out = Image_size im /\
    (forall x y, getpixel out x y =
       [blend (a x y) cr (r x y); blend (a x y) cg (g x y); blend (a x y) cb (b x y)]) /\
    (forall x y, getpixel out x y =
       [(2 * (cr * (255 - a x y) + r x y * a x y) + 255) / 510;
        (2 * (cg * (255 - a x y) + g x y * a x y) + 255) / 510;
        (2 * (cb * (255 - a x y) + b x y * a x y) + 255) / 510]) /\
    (forall x y, a x y = 0 -> getpixel out x y = [cr; cg; cb]) /\
    (forall x y, a x y = 255 -> getpixel out x y = [r x y; g x y; b x y]) /\
    ((forall x y, a x y = 0 \/ a x y = 255) ->
     forall x y, getpixel out x y =
       if a x y =? 0 then [cr; cg; cb] else [r x y; g x y; b x y]) /\
    white = [255; 255; 255].
Proof.
  intros Hl Hm Hb Hcr Hcg Hcb.
  set (bg := fresh (dom (heap w))).
  set (new := mkImage "RGB" (Image_size im)
                (map (fun (v : Z) (_ _ : Z) => clip8 v) [cr; cg; cb])).
  set (out := paste convert_other new im a).
  exists bg, out, (mkWorld (<[bg := out]> (<[bg := new]> (heap w))) (log w)).
  assert (Hpix : forall x y, getpixel out x y =
       [blend (a x y) cr (r x y); blend (a x y) cg (g x y); blend (a x y) cb (b x y)]).
  { intros x y. unfold out, getpixel, paste, paste_planes, new.
    cbn [Image_mode Image_bands]. rewrite Hm, Hb. cbn.
    now rewrite !clip8_byte by assumption. }
  split.
  { unfold pure_pil_alpha_to_color_v2, Image_paste, mbind, M_bind, deref, alloc,
      assign, lift, mret, M_ret, Image_split, Image_new_RGB. simpl.
    rewrite Hl. cbn [heap log]. rewrite Hb. cbn [lookup list_lookup heap log].
    rewrite lookup_insert_eq. cbn [heap log].
    rewrite (alloc_keeps _ _ _ _ Hl). reflexivity. }
  split; [apply fresh_unused|].
  split; [simpl; apply lookup_insert_eq|].
  split; [reflexivity|]. split; [reflexivity|].
  split; [exact Hpix|].
  split; [intros x y; rewrite Hpix, !blend_integer; reflexivity|].
  split; [intros x y H0; rewrite Hpix, H0, !blend_transparent; reflexivity|].
  split; [intros x y H1; rewrite Hpix, H1, !blend_opaque; reflexivity|].
  split; [|reflexivity].
  intros H x y. rewrite Hpix.
  destruct (H x y) as [E|E]; rewrite E; simpl;
    now rewrite ?blend_transparent, ?blend_opaque.
Qed.

Lemma alpha_flattener_pixels_witness :
  exists (background : loc) (out : Image) (w' : World),
    pure_pil_alpha_to_color_v2 no_conversion 0%nat [255; 255; 255]
      (world_of sample_rgba) = (Return background, w') /\
    heap w' !! background = Some out /\
    getpixel out 0 0 = [255; 255; 255] /\ getpixel out 1 0 = [10; 20; 30].
Proof.
  destruct (alpha_flattener_pixels no_conversion (world_of sample_rgba) 0%nat
              sample_rgba
              (fun _ _ => 10) (fun _ _ => 20) (fun _ _ => 30)
              (fun x _ => if x =? 0 then 0 else 255) 255 255 255
              eq_refl eq_refl eq_refl ltac:(lia) ltac:(lia) ltac:(lia))
    as (l & out & w' & Hr & _ & Hh & _ & _ & _ & _ & H0 & H1 & _).
  exists l, out, w'.
  split; [exact Hr|]. split; [exact Hh|].
  split; [apply H0; reflexivity|apply H1; reflexivity].
Defined.

(** ** Running the program *)

Lemma bind_run {A B : Type} (m : M A) (f : A -> M B) (w : World) :
  (m ≫= f) w =
  match m w with
  | (Return a, w') => f a w'
  | (Raise e, w') => (Raise e, w')
  | (Exit st, w') => (Exit st, w')
  end.
Proof. reflexivity. Qed.

Lemma ret_bind {A B : Type} (a : A) (f : A -> M B) (w : World) :
  (mret a ≫= f) w = f a w.
Proof. reflexivity. Qed.

Lemma deref_run (l : loc) (im : Image) (w : World) :
  heap w !! l = Some im -> deref l w = (Return im, w).
Proof. intros H. unfold deref. now rewrite H. Qed.

(** ** The crop box *)

Lemma fit_box_centred_crop (srcW srcH tw th : Z) :
  0 < srcW -> 0 < srcH -> 0 < tw -> 0 < th ->
  let b := fit_box (srcW, srcH) (tw, th) in
  let l := fst (fst (fst b)) in
  let t := snd (fst (fst b)) in
  let r := snd (fst b) in
  let d := snd b in
  (0 <= l /\ 0 <= t /\ r <= inject_Z srcW /\ d <= inject_Z srcH /\
   l == inject_Z srcW - r /\ t == inject_Z srcH - d /\
   box_width b * inject_Z th == box_height b * inject_Z tw /\
   (box_width b == inject_Z srcW \/ box_height b == inject_Z srcH))%Q.
Proof.
  intros HW HH Hw Hh.
  destruct srcW as [|W|]; try lia. destruct srcH as [|H|]; try lia.
  destruct tw as [|a|]; try lia. destruct th as [|c|]; try lia.
  cbv zeta. unfold fit_box. cbn [fst snd].
  destruct (Qlt_le_dec _ _) as [Hlt|Hle]; cbn [fst snd box_width box_height].
  - assert (Hx : (inject_Z (Z.pos H) * (inject_Z (Z.pos a) / inject_Z (Z.pos c))
                  < inject_Z (Z.pos W))%Q).
    { unfold Qlt, Qdiv, Qmult, Qinv, inject_Z in *. simpl in *. nia. }
    assert (Ha : (inject_Z (Z.pos H) * (inject_Z (Z.pos a) / inject_Z (Z.pos c))
                  * inject_Z (Z.pos c) == inject_Z (Z.pos H) * inject_Z (Z.pos a))%Q).
    { field. discriminate. }
    revert Hx Ha.
    generalize (inject_Z (Z.pos H) * (inject_Z (Z.pos a) / inject_Z (Z.pos c)))%Q.
    intros x Hx Ha.
    unfold Qdiv. change (/ 2)%Q with (1 # 2)%Q.
    do 6 (split; [lra|]). split; [|right; lra].
    apply Qeq_trans with (x * inject_Z (Z.pos c))%Q; [ring|].
    rewrite Ha. ring.
  - assert (Hy : (inject_Z (Z.pos W) / (inject_Z (Z.pos a) / inject_Z (Z.pos c))
                  <= inject_Z (Z.pos H))%Q).
    { unfold Qle, Qdiv, Qmult, Qinv, inject_Z in *. simpl in *. nia. }
    assert (Ha : (inject_Z (Z.pos W) * inject_Z (Z.pos c) ==
                  inject_Z (Z.pos W) / (inject_Z (Z.pos a) / inject_Z (Z.pos c))
                  * inject_Z (Z.pos a))%Q).
    { field. split; discriminate. }
    revert Hy Ha.
    generalize (inject_Z (Z.pos W) / (inject_Z (Z.pos a) / inject_Z (Z.pos c)))%Q.
    intros y Hy Ha.
    unfold Qdiv. change (/ 2)%Q with (1 # 2)%Q.
    do 6 (split; [lra|]). split; [|left; lra].
    apply Qeq_trans with (inject_Z (Z.pos W) * inject_Z (Z.pos c))%Q; [ring|].
    rewrite Ha. ring.
Qed.

Section Properties.

Variable requests_get : string -> exn + Raw.
Variable Image_open : Raw -> exn + Image.
Variable convert_other : string -> string -> list band -> list band.
Variable resample : filter -> band -> box -> Z * Z -> band.
Variable resource_string : string -> string -> exn + Raw.
Variable ImageFont_truetype : Raw -> Z -> exn + ImageFont.
Variable draw_other :
  Image -> pynum * pynum -> string -> ImageFont -> option (list Z) -> exn + list band.

Local Abbreviation download_image' := (download_image requests_get Image_open convert_other).
Local Abbreviation resize_image' := (resize_image resample).
Local Abbreviation Draw_text' := (Draw_text draw_other).
Local Abbreviation set_image_title' :=
  (set_image_title resource_string ImageFont_truetype draw_other).
Local Abbreviation compose' :=
  (compose requests_get Image_open convert_other resample resource_string
     ImageFont_truetype draw_other).
Local Abbreviation font_file := (resource_string "wpreddit.download" "fonts/Cantarell-Regular.otf").

Lemma keeps_bind {A B : Type} (l : loc) (m : M A) (f : A -> M B) :
  keeps l m -> (forall a, keeps l (f a)) -> keeps l (m ≫= f).
Proof.
  intros Hm Hf w. rewrite bind_run. specialize (Hm w).
  destruct (m w) as [[a|e|st] w1]; cbn [snd] in *; [|exact Hm..].
  now rewrite Hf.
Qed.

Lemma keeps_ret {A : Type} (l : loc) (a : A) : keeps l (mret a).
Proof. intros w. reflexivity. Qed.

Lemma Draw_text_keeps (draw : Draw) (xy : pynum * pynum) (text : string)
    (font : ImageFont) (fill : option (list Z)) (l : loc) :
  l <> Draw_image draw -> keeps l (Draw_text' draw xy text font fill).
Proof.
  intros Hne w.
  unfold Draw_text, mbind, M_bind, deref, lift, raise, assign, mret, M_ret.
  repeat case_match; simplify_eq; cbn [snd heap];
    rewrite ?lookup_insert_ne by congruence; reflexivity.
Qed.

Lemma Draw_text_rgb (draw : Draw) (xy : pynum * pynum) (text : string)
    (font : ImageFont) (fill : option (list Z)) (im : Image) (i : ink) (w : World) :
  heap w !! Draw_image draw = Some im ->
  Image_mode im = "RGB" ->
  match fill with Some f => getink_RGB f | None => inr (Draw_ink draw) end = inr i ->
  Draw_text' draw xy text font fill w =
  (Return tt,
   mkWorld (<[Draw_image draw := draw_bitmap im xy text font i]> (heap w)) (log w)).
Proof.
  intros H Hm Hi. unfold Draw_text.
  rewrite bind_run, (deref_run _ _ _ H), Hm. cbn [String.eqb Ascii.eqb Bool.eqb].
  rewrite Hi. reflexivity.
Qed.

Lemma Draw_text_returns (draw : Draw) (xy : pynum * pynum) (text : string)
    (font : ImageFont) (fill : option (list Z)) (w : World) :
  fst (Draw_text' draw xy text font fill w) = Return tt ->
  exists out, heap (snd (Draw_text' draw xy text font fill w)) !! Draw_image draw
              = Some out.
Proof.
  unfold Draw_text, mbind, M_bind, deref, lift, raise, assign, mret, M_ret.
  repeat case_match; simplify_eq; cbn [fst snd heap]; intros H;
    try discriminate H; eexists; apply lookup_insert_eq.
Qed.

(** Once the image is copied and the font loaded, what is left of
    [set_image_title] is the two [draw.text] calls. *)
Lemma set_image_title_loaded (w : World) (img : loc) (im : Image)
    (title gravity : string) (padding : Z * Z) (fontsize : Z)
    (bytes : Raw) (font : ImageFont) :
  heap w !! img = Some im ->
  font_file = inr bytes ->
  ImageFont_truetype bytes fontsize = inr font ->
  let ret := fresh (dom (heap w)) in
  let xy := title_point im font title gravity padding in
  let draw := mkDraw ret (default_ink (Image_mode im)) in
  set_image_title' img title gravity padding fontsize w =
  (Draw_text' draw (py_add (fst xy) 2, py_add (snd xy) 2) (remove_tags title) font
     (Some [0; 0; 0; 127])
   ≫= fun _ => Draw_text' draw xy (remove_tags title) font None
   ≫= fun _ => mret ret)
    (mkWorld (<[ret := im]> (heap w)) (log w ++ [(DEBUG, "Setting title")])).
Proof.
  intros Hl Hr Hf. cbv zeta.
  unfold set_image_title, Image_copy, ImageDraw_Draw.
  rewrite bind_run. cbn [logging].
  rewrite !bind_run. rewrite (deref_run img im) by exact Hl.
  unfold alloc at 1. cbn [heap log].
  rewrite !bind_run.
  rewrite (deref_run (fresh (dom (heap w))) im) by (cbn [heap]; apply lookup_insert_eq).
  unfold mret at 1, M_ret at 1.
  rewrite Hr. cbn [lift]. rewrite ret_bind, Hf. cbn [lift]. rewrite ret_bind.
  rewrite bind_run.
  rewrite (deref_run (fresh (dom (heap w))) im) by (cbn [heap]; apply lookup_insert_eq).
  reflexivity.
Qed.

Lemma set_image_title_run (w : World) (img : loc) (im : Image)
    (title gravity : string) (padding : Z * Z) (fontsize : Z)
    (bytes : Raw) (font : ImageFont) :
  heap w !! img = Some im ->
  Image_mode im = "RGB" ->
  font_file = inr bytes ->
  ImageFont_truetype bytes fontsize = inr font ->
  let ret := fresh (dom (heap w)) in
  let xy := title_point im font title gravity padding in
  let shadow := draw_bitmap im (py_add (fst xy) 2, py_add (snd xy) 2)
                  (remove_tags title) font (rgb_ink 0 0 0) in
  set_image_title' img title gravity padding fontsize w =
  (Return ret,
   mkWorld (<[ret := caption_drawn im xy (remove_tags title) font]>
              (<[ret := shadow]> (<[ret := im]> (heap w))))
           (log w ++ [(DEBUG, "Setting title")])).
Proof.
  intros Hl Hm Hr Hf. cbv zeta.
  rewrite (set_image_title_loaded w img im title gravity padding fontsize
             bytes font Hl Hr Hf). cbv zeta.
  rewrite bind_run.
  rewrite (Draw_text_rgb _ _ _ _ _ im (rgb_ink 0 0 0))
    by (cbn [heap Draw_image]; (apply lookup_insert_eq || assumption || reflexivity)).
  cbn [heap log Draw_image]. rewrite bind_run.
  erewrite Draw_text_rgb
    by (cbn [heap Draw_image Draw_ink];
        (apply lookup_insert_eq || assumption || reflexivity)).
  reflexivity.
Qed.

Lemma set_image_title_no_image (w : World) (img : loc)
    (title gravity : string) (padding : Z * Z) (fontsize : Z) :
  heap w !! img = None ->
  set_image_title' img title gravity padding fontsize w =
  (Raise ValueError, mkWorld (heap w) (log w ++ [(DEBUG, "Setting title")])).
Proof.
  intros Hl.
  unfold set_image_title, Image_copy.
  rewrite bind_run. cbn [logging]. rewrite !bind_run.
  unfold deref at 1. cbn [heap]. rewrite Hl. reflexivity.
Qed.

Lemma set_image_title_no_font (w : World) (img : loc) (im : Image)
    (title gravity : string) (padding : Z * Z) (fontsize : Z) (e : exn) :
  heap w !! img = Some im ->
  (font_file = inl e \/
   exists bytes, font_file = inr bytes /\ ImageFont_truetype bytes fontsize = inl e) ->
  set_image_title' img title gravity padding fontsize w =
  (Raise e,
   mkWorld (<[fresh (dom (heap w)) := im]> (heap w))
           (log w ++ [(DEBUG, "Setting title")])).
Proof.
  intros Hl Hfail.
  unfold set_image_title, Image_copy, ImageDraw_Draw.
  rewrite bind_run. cbn [logging].
  rewrite !bind_run. rewrite (deref_run img im) by exact Hl.
  unfold alloc at 1. cbn [heap log].
  rewrite !bind_run.
  rewrite (deref_run (fresh (dom (heap w))) im) by (cbn [heap]; apply lookup_insert_eq).
  unfold mret at 1, M_ret at 1.
  destruct Hfail as [Hr|(bytes & Hr & Hf)]; rewrite Hr; cbn [lift].
  - reflexivity.
  - rewrite ret_bind, Hf. reflexivity.
Qed.

Lemma set_image_title_frame (w : World) (img : loc)
    (title gravity : string) (padding : Z * Z) (fontsize : Z)
    (l : loc) (im : Image) :
  heap w !! l = Some im ->
  heap (snd (set_image_title' img title gravity padding fontsize w)) !! l = Some im.
Proof.
  intros H.
  destruct (heap w !! img) as [im0|] eqn:Hl;
    [|now rewrite set_image_title_no_image].
  destruct font_file as [e|bytes] eqn:Hr.
  { rewrite (set_image_title_no_font _ _ im0 _ _ _ _ e Hl) by (now left).
    cbn [snd heap]. now apply alloc_keeps. }
  destruct (ImageFont_truetype bytes fontsize) as [e|font] eqn:Hf.
  { rewrite (set_image_title_no_font _ _ im0 _ _ _ _ e Hl) by (right; eauto).
    cbn [snd heap]. now apply alloc_keeps. }
  rewrite (set_image_title_loaded _ _ im0 _ _ _ _ bytes font Hl Hr Hf). cbv zeta.
  pose proof (fresh_other _ _ _ H) as Hne.
  rewrite keeps_bind.
  - cbn [heap]. now apply alloc_keeps.
  - apply Draw_text_keeps. cbn [Draw_image]. congruence.
  - intros _. apply keeps_bind; [|intros _; apply keeps_ret].
    apply Draw_text_keeps. cbn [Draw_image]. congruence.
Qed.

Lemma set_image_title_returned (w : World) (img : loc) (im : Image)
    (title gravity : string) (padding : Z * Z) (fontsize : Z) (ret : loc) :
  heap w !! img = Some im ->
  fst (set_image_title' img title gravity padding fontsize w) = Return ret ->
  ret = fresh (dom (heap w)) /\
  exists out,
    heap (snd (set_image_title' img title gravity padding fontsize w)) !! ret
    = Some out.
Proof.
  intros Hl.
  destruct font_file as [e|bytes] eqn:Hr.
  { rewrite (set_image_title_no_font _ _ im _ _ _ _ e Hl) by (now left).
    intros H. discriminate H. }
  destruct (ImageFont_truetype bytes fontsize) as [e|font] eqn:Hf.
  { rewrite (set_image_title_no_font _ _ im _ _ _ _ e Hl) by (right; eauto).
    intros H. discriminate H. }
  rewrite (set_image_title_loaded _ _ im _ _ _ _ bytes font Hl Hr Hf). cbv zeta.
  rewrite bind_run.
  destruct (Draw_text' _ _ _ _ (Some _) _) as [[[]|e|st] w1] eqn:E1;
    [|intros H; discriminate H..].
  rewrite bind_run.
  match goal with
  | |- context [Draw_text' ?d ?xy ?t ?f None w1] =>
      pose proof (Draw_text_returns d xy t f None w1) as Hret;
      destruct (Draw_text' d xy t f None w1) as [[[]|e|st] w2] eqn:E2
  end; [|intros H; discriminate H..].
  cbn [fst snd] in *. intros [= <-]. split; [reflexivity|]. now apply Hret.
Qed.

Lemma map_imap_pixel (f : nat -> band -> band) (l : list band) (x y : Z) :
  (forall k b, f k b x y = b x y) ->
  map (fun b : band => b x y) (imap f l) = map (fun b : band => b x y) l.
Proof.
  revert f. induction l as [|b l IH]; intros f Hf; [reflexivity|].
  cbn. rewrite Hf. f_equal. apply IH. intros k b'. apply Hf.
Qed.




(** C6.  For every image and caption, [set_image_title] does not modify
    the image it is given: whatever the call does (return, or raise because
    the font does not load or the fill does not suit the mode of the image),
    the object of the argument and every other object of the heap hold what
    they held before; a returned image is a new object, distinct from the
    argument, and on an RGB image the call returns whenever the font
    loads. *)
Theorem set_image_title_keeps_input (w : World) (img : loc) (im : Image)
    (title gravity : string) (padding : Z * Z) (fontsize : Z) :
  heap w !! img = Some im ->
  let r := set_image_title' img title gravity padding fontsize w in
  heap (snd r) !! img = Some im /\
  (forall l im', heap w !! l = Some im' -> heap (snd r) !! l = Some im') /\
  (forall ret, fst r = Return ret ->
     ret <> img /\ heap w !! ret = None /\
     exists out, heap (snd r) !! ret = Some out) /\
  (forall bytes font,
     Image_mode im = "RGB" ->
     font_file = inr bytes -> ImageFont_truetype bytes fontsize = inr font ->
     exists ret, fst r = Return ret).
Proof.
  intros Hl r. subst r.
  split; [now apply set_image_title_frame|].
  split; [intros l im'; apply set_image_title_frame|].
  split.
  - intros ret Hret.
    destruct (set_image_title_returned _ _ im _ _ _ _ _ Hl Hret) as [-> Hout].
    split; [eapply fresh_other, Hl|].
    split; [apply fresh_unused|exact Hout].
  - intros bytes font Hm Hr Hf.
    rewrite (set_image_title_run _ _ im _ _ _ _ bytes font Hl Hm Hr Hf).
    eexists. reflexivity.
Qed.



(** *** [download_image] *)

Lemma try_run {A : Type} (body handler : M A) (w : World) :
  try_except_IOError body handler w =
  match body w with
  | (Raise IOError, w') => handler w'
  | r => r
  end.
Proof. reflexivity. Qed.

Lemma download_image_ok (url : string) (w : World) (raw : Raw) (opened : Image) :
  requests_get url = inr raw ->
  Image_open raw = inr opened ->
  let h1 := <[fresh (dom (heap w)) := opened]> (heap w) in
  download_image' url w =
  (Return (fresh (dom h1)),
   mkWorld (<[fresh (dom h1) := convert convert_other opened "RGB"]> h1)
           (log w ++ [(INFO, "Downloading " ++ url)])).
Proof.
  intros Hg Ho. cbv zeta.
  unfold download_image. rewrite try_run.
  rewrite Hg. cbn [lift]. rewrite ret_bind.
  rewrite bind_run. cbn [logging].
  rewrite Ho. cbn [lift]. rewrite ret_bind.
  rewrite bind_run. unfold alloc at 1. cbn [heap log].
  unfold Image_convert. rewrite !bind_run.
  rewrite (deref_run (fresh (dom (heap w))) opened)
    by (cbn [heap]; apply lookup_insert_eq).
  unfold alloc at 1. cbn [heap log].
  rewrite bind_run.
  rewrite (deref_run _ (convert convert_other opened "RGB"))
    by (cbn [heap]; apply lookup_insert_eq).
  cbn [convert Image_mode String.eqb Ascii.eqb Bool.eqb].
  reflexivity.
Qed.

Lemma download_image_fetch_fails (url : string) (w : World) (e : exn) :
  requests_get url = inl e ->
  download_image' url w =
  match e with
  | IOError =>
      (Exit 1, mkWorld (heap w) (log w ++ [(ERROR, "Error downloading image!")]))
  | _ => (Raise e, w)
  end.
Proof.
  intros Hg. unfold download_image. rewrite try_run.
  rewrite bind_run, Hg. cbn [lift raise]. destruct e; reflexivity.
Qed.

Lemma download_image_decode_fails (url : string) (w : World) (raw : Raw) (e : exn) :
  requests_get url = inr raw ->
  Image_open raw = inl e ->
  download_image' url w =
  match e with
  | IOError =>
      (Exit 1,
       mkWorld (heap w)
         ((log w ++ [(INFO, "Downloading " ++ url)])
            ++ [(ERROR, "Error downloading image!")]))
  | _ => (Raise e, mkWorld (heap w) (log w ++ [(INFO, "Downloading " ++ url)]))
  end.
Proof.
  intros Hg Ho. unfold download_image. rewrite try_run.
  rewrite Hg. cbn [lift]. rewrite ret_bind.
  rewrite bind_run. cbn [logging].
  rewrite bind_run, Ho. cbn [lift raise]. destruct e; reflexivity.
Qed.

(** C10.  In [download_image] the image is converted to mode "RGB" before
    the test of the mode, so the test is false for every decoded image: the
    flattening branch never runs (its log line is never written), every
    returned image has mode "RGB", and an RGBA source keeps its three colour
    planes as they are: the alpha plane is dropped, not composited over a
    background. *)
Theorem download_image_never_flattens (url : string) (w : World) :
  let r := download_image' url w in
  (forall img, fst r = Return img ->
     exists raw opened,
       requests_get url = inr raw /\ Image_open raw = inr opened /\
       heap (snd r) !! img = Some (convert convert_other opened "RGB") /\
       Image_mode (convert convert_other opened "RGB") = "RGB" /\
       Image_size (convert convert_other opened "RGB") = Image_size opened /\
       (Image_mode opened = "RGBA" ->
        Image_bands (convert convert_other opened "RGB") =
          take 3 (Image_bands opened))) /\
  (exists added,
     log (snd r) = (log w ++ added)%list /\
     ~ In (DEBUG, "Removing alpha layer...") added) /\
  (forall raw opened,
     requests_get url = inr raw -> Image_open raw = inr opened ->
     exists img, fst r = Return img).
Proof.
  cbv zeta.
  destruct (requests_get url) as [e|raw] eqn:Hg.
  { rewrite (download_image_fetch_fails _ _ _ Hg).
    split; [intros img H; destruct e; discriminate H|].
    split; [|intros ? ? [=]].
    destruct e; cbn [snd log];
      try (exists []; rewrite app_nil_r; split; [reflexivity|intros []]).
    eexists. split; [reflexivity|]. intros [H|[]]. discriminate H. }
  destruct (Image_open raw) as [e|opened] eqn:Ho.
  { rewrite (download_image_decode_fails _ _ _ _ Hg Ho).
    split; [intros img H; destruct e; discriminate H|].
    split; [|intros ? ? [= <-]; congruence].
    destruct e; cbn [snd log]; rewrite <- ?app_assoc;
      (eexists; split; [reflexivity|]);
      cbn; intros H; repeat (destruct H as [H|H]; [discriminate H|]); exact H. }
  rewrite (download_image_ok _ _ _ _ Hg Ho). cbv zeta. cbn [fst snd heap log].
  split.
  - intros img [= <-]. exists raw, opened.
    split; [reflexivity|]. split; [exact Ho|].
    split; [apply lookup_insert_eq|].
    split; [reflexivity|]. split; [reflexivity|].
    intros Hm. unfold convert, convert_bands. cbn [Image_bands].
    rewrite Hm. reflexivity.
  - split; [|intros; eexists; reflexivity].
    eexists. split; [reflexivity|].
    cbn. intros [H|[]]. discriminate H.
Qed.

(** C9 (amended).  For every invocation, an IOError raised while fetching
    or while decoding is logged by [download_image] as "Error downloading
    image!" and ends the call through [sys.exit(1)], with the same exit
    status for both stages; any other exception of these stages, and any
    exception of the fitting and rendering stages, propagates to the caller
    as it is.  A failing call never returns an image, leaves the heap as it
    was, and stops the pipeline: no later stage runs, and after a fetch or
    decode failure the caption renderer does not run. *)
Theorem download_failure_exits (url : string) (w : World)
    (target : Z * Z) (title gravity : string) (padding : Z * Z) (fontsize : Z) :
  (requests_get url = inl IOError ->
   download_image' url w =
   (Exit 1, mkWorld (heap w) (log w ++ [(ERROR, "Error downloading image!")]))) /\
  (forall raw,
     requests_get url = inr raw -> Image_open raw = inl IOError ->
     download_image' url w =
     (Exit 1,
      mkWorld (heap w)
        ((log w ++ [(INFO, "Downloading " ++ url)])
           ++ [(ERROR, "Error downloading image!")]))) /\
  (forall e, e <> IOError -> requests_get url = inl e ->
     download_image' url w = (Raise e, w)) /\
  (forall raw e, e <> IOError ->
     requests_get url = inr raw -> Image_open raw = inl e ->
     download_image' url w =
     (Raise e, mkWorld (heap w) (log w ++ [(INFO, "Downloading " ++ url)]))) /\
  ((forall img, fst (download_image' url w) <> Return img) ->
   compose' url target title gravity padding fontsize w = download_image' url w /\
   heap (snd (download_image' url w)) = heap w /\
   forall msg, In (DEBUG, msg) (log (snd (compose' url target title gravity padding fontsize w))) ->
               In (DEBUG, msg) (log w)) /\
  (forall img w1 e w2,
     download_image' url w = (Return img, w1) ->
     resize_image' img (fst target) (snd target) w1 = (Raise e, w2) ->
     compose' url target title gravity padding fontsize w = (Raise e, w2)) /\
  (forall img w1 img2 w2,
     download_image' url w = (Return img, w1) ->
     resize_image' img (fst target) (snd target) w1 = (Return img2, w2) ->
     compose' url target title gravity padding fontsize w =
     set_image_title' img2 title gravity padding fontsize w2).
Proof.
  split; [intros Hg; now rewrite (download_image_fetch_fails _ _ _ Hg)|].
  split; [intros raw Hg Ho; now rewrite (download_image_decode_fails _ _ _ _ Hg Ho)|].
  split.
  { intros e Hne Hg. rewrite (download_image_fetch_fails _ _ _ Hg).
    destruct e; congruence. }
  split.
  { intros raw e Hne Hg Ho. rewrite (download_image_decode_fails _ _ _ _ Hg Ho).
    destruct e; congruence. }
  split.
  { intros Hfail.
    assert (Hc : compose' url target title gravity padding fontsize w =
                 download_image' url w).
    { unfold compose. rewrite bind_run.
      destruct (download_image' url w) as [[img|e|st] w1] eqn:Hd; try reflexivity.
      exfalso. apply (Hfail img). reflexivity. }
    split; [exact Hc|]. rewrite Hc.
    destruct (requests_get url) as [e|raw] eqn:Hg.
    { rewrite (download_image_fetch_fails _ _ _ Hg).
      destruct e; cbn [snd heap log]; (split; [reflexivity|]); auto.
      intros msg [H|[H|[]]]%in_app_or; [exact H|discriminate H]. }
    destruct (Image_open raw) as [e|opened] eqn:Ho.
    { rewrite (download_image_decode_fails _ _ _ _ Hg Ho).
      destruct e; cbn [snd heap log]; (split; [reflexivity|]);
        intros msg H; repeat (apply in_app_or in H as [H|H]); try exact H;
        destruct H as [H|[]]; discriminate H. }
    exfalso. eapply Hfail. rewrite (download_image_ok _ _ _ _ Hg Ho). reflexivity. }
  split.
  { intros img w1 e w2 Hd Hrs. unfold compose.
    rewrite bind_run, Hd, bind_run, Hrs. reflexivity. }
  intros img w1 img2 w2 Hd Hrs. unfold compose.
  rewrite bind_run, Hd, bind_run, Hrs. reflexivity.
Qed.

(** *** [resize_image] *)

Lemma resize_image_run (w : World) (img : loc) (im : Image) (width height : Z) :
  heap w !! img = Some im ->
  0 < fst (Image_size im) -> 0 < snd (Image_size im) ->
  0 < width -> 0 < height ->
  resize_image' img width height w =
  (Return (fresh (dom (heap w))),
   mkWorld
     (<[fresh (dom (heap w)) :=
        resize resample im (width, height) ANTIALIAS
          (fit_box (Image_size im) (width, height))]> (heap w))
     (log w ++ [(DEBUG, "Resizing the downloaded wallpaper...")])).
Proof.
  intros Hl HW HH Hw Hh.
  unfold resize_image, ImageOps_fit.
  rewrite bind_run. cbn [logging]. rewrite bind_run.
  rewrite (deref_run img im) by exact Hl.
  cbn [fst snd].
  destruct (Z.leb_spec width 0); [lia|].
  destruct (Z.leb_spec height 0); [lia|].
  destruct (Z.leb_spec (fst (Image_size im)) 0); [lia|].
  destruct (Z.leb_spec (snd (Image_size im)) 0); [lia|].
  reflexivity.
Qed.

(** C3.  For every source image of positive size, whatever its size is
    next to the target, and every positive target (width, height),
    [resize_image] returns a new image whose size is exactly
    (width, height), with the mode and the number of bands of the source:
    each of its planes is the plane of the source resampled with the
    ANTIALIAS filter from the crop box to (width, height), and the crop box
    lies inside the source, is centred, has the aspect ratio of the target
    and spans the source in one of the two axes.  The source is left as it
    was. *)
Theorem canvas_fitter_size (w : World) (img : loc) (im : Image) (width height : Z) :
  heap w !! img = Some im ->
  0 < fst (Image_size im) -> 0 < snd (Image_size im) ->
  0 < width -> 0 < height ->
  let b := fit_box (Image_size im) (width, height) in
  exists (ret : loc) (out : Image) (w' : World),
    resize_image' img width height w = (Return ret, w') /\
    heap w !! ret = None /\
    heap w' !! ret = Some out /\
    heap w' !! img = Some im /\
    out = resize resample im (width, height) ANTIALIAS b /\
    Image_size out = (width, height) /\
    Image_mode out = Image_mode im /\
    length (Image_bands out) = length (Image_bands im) /\
    (forall (k : nat) (p : band),
       Image_bands im !! k = Some p ->
       Image_bands out !! k = Some (resample ANTIALIAS p b (width, height))) /\
    (0 <= fst (fst (fst b)) /\ 0 <= snd (fst (fst b)) /\
     snd (fst b) <= inject_Z (fst (Image_size im)) /\
     snd b <= inject_Z (snd (Image_size im)) /\
     fst (fst (fst b)) == inject_Z (fst (Image_size im)) - snd (fst b) /\
     snd (fst (fst b)) == inject_Z (snd (Image_size im)) - snd b /\
     box_width b * inject_Z height == box_height b * inject_Z width /\
     (box_width b == inject_Z (fst (Image_size im)) \/
      box_height b == inject_Z (snd (Image_size im))))%Q.
Proof.
  intros Hl HW HH Hw Hh b.
  eexists _, _, _.
  split; [apply (resize_image_run w img im width height Hl HW HH Hw Hh)|].
  split; [apply fresh_unused|].
  split; [cbn [heap]; apply lookup_insert_eq|].
  split; [cbn [heap]; now apply alloc_keeps|].
  split; [reflexivity|]. split; [reflexivity|]. split; [reflexivity|].
  split; [cbn [resize Image_bands]; now rewrite length_map|].
  split.
  { intros k p Hk. cbn [resize Image_bands].
    now rewrite list_lookup_fmap, Hk. }
  subst b. destruct (Image_size im) as [srcW srcH]. cbn [fst snd] in HW, HH |- *.
  apply (fit_box_centred_crop srcW srcH width height HW HH Hw Hh).
Qed.

End Properties.

(** ** The properties at sample inputs *)

Lemma canvas_fitter_size_witness :
  exists (ret : loc) (out : Image) (w' : World),
    resize_image nearest 0%nat 192 108 (world_of sample_gradient) = (Return ret, w') /\
    heap w' !! ret = Some out /\
    Image_size out = (192, 108) /\
    Image_bands out !! 1%nat =
      Some (nearest ANTIALIAS (fun _ y => y) (fit_box (400, 300) (192, 108)) (192, 108)).
Proof.
  destruct (canvas_fitter_size nearest (world_of sample_gradient) 0%nat
              sample_gradient 192 108 eq_refl eq_refl eq_refl eq_refl eq_refl)
    as (ret & out & w' & Hrun & _ & Hout & _ & _ & Hsize & _ & _ & Hplanes & _).
  exists ret, out, w'.
  split; [exact Hrun|]. split; [exact Hout|]. split; [exact Hsize|].
  apply (Hplanes 1%nat (fun _ y => y)). reflexivity.
Defined.

(** With the nearest neighbour for a kernel, the first pixel of the result
    is a pixel of the source inside the crop box, 37.5 rows down. *)
Lemma canvas_fitter_crops_gradient :
  getpixel (resize nearest sample_gradient (192, 108) ANTIALIAS
              (fit_box (400, 300) (192, 108))) 0 0 = [1; 38; 0] /\
  getpixel (resize nearest sample_gradient (192, 108) ANTIALIAS
              (fit_box (400, 300) (192, 108))) 191 107 = [398; 261; 0].
Proof. split; vm_compute; reflexivity. Qed.

Lemma set_image_title_keeps_input_witness :
  heap (snd (set_image_title resource_ok truetype_ok draw_nothing 0%nat
               "Sunset [4K]" "bottom center" (0, 40) 48 (world_of sample_rgb)))
    !! 0%nat = Some sample_rgb.
Proof.
  exact (proj1 (set_image_title_keeps_input resource_ok truetype_ok draw_nothing
                  (world_of sample_rgb) 0%nat sample_rgb "Sunset [4K]"
                  "bottom center" (0, 40) 48 eq_refl)).
Defined.





Lemma download_image_never_flattens_witness :
  exists img : loc,
    fst (download_image get_ok open_rgba no_conversion "http://i.redd.it/a.png"
           (mkWorld ∅ [])) = Return img.
Proof.
  apply (proj2 (proj2 (download_image_never_flattens get_ok open_rgba
                         no_conversion "http://i.redd.it/a.png" (mkWorld ∅ [])))
           [137; 80; 78; 71] sample_rgba eq_refl eq_refl).
Defined.

Lemma download_failure_exits_witness :
  download_image get_fails open_fails no_conversion "http://i.redd.it/a.png"
    (mkWorld ∅ []) =
  (Exit 1, mkWorld ∅ [(ERROR, "Error downloading image!")]).
Proof.
  apply (proj1 (download_failure_exits get_fails open_fails no_conversion
                  nearest resource_ok truetype_ok draw_nothing
                  "http://i.redd.it/a.png"
                  (mkWorld ∅ []) (1920, 1080) "Sunset [4K]" "bottom center"
                  (0, 40) 48) eq_refl).
Defined.

(** C9 as stated fails: a failing fetch and a failing decode give the
    caller the same thing, the exit status 1, so nothing the caller receives
    identifies the stage that failed. *)
Lemma download_failure_stage_unknown :
  fst (download_image get_fails open_rgba no_conversion "http://i.redd.it/a.png"
         (mkWorld ∅ [])) = Exit 1 /\
  fst (download_image get_ok open_fails no_conversion "http://i.redd.it/a.png"
         (mkWorld ∅ [])) = Exit 1 /\
  ~ exists identify : outcome loc -> stage, identifies_failing_stage identify.
Proof.
  split; [reflexivity|]. split; [reflexivity|].
  intros [identify H].
  destruct (H get_fails open_rgba no_conversion "http://i.redd.it/a.png"
              (mkWorld ∅ [])) as [Hfetch _].
  destruct (H get_ok open_fails no_conversion "http://i.redd.it/a.png"
              (mkWorld ∅ [])) as [_ Hdecode].
  specialize (Hfetch IOError eq_refl).
  specialize (Hdecode [137; 80; 78; 71] IOError eq_refl eq_refl).
  vm_compute in Hfetch, Hdecode. congruence.
Qed.

(* ================================================================= *)
(** * Further properties *)

(** ** [save_info] *)

Lemma append_cancel (p a b : string) : p ++ a = p ++ b -> a = b.
Proof.
  induction p as [|c p IH]; simpl; [auto|]. intros [= H]. auto.
Qed.

Lemma info_paths_distinct (basepath : string) :
  basepath ++ "/url.txt" <> basepath ++ "/title.txt" /\
  basepath ++ "/url.txt" <> basepath ++ "/permalink.txt" /\
  basepath ++ "/title.txt" <> basepath ++ "/permalink.txt".
Proof.
  repeat split; intros H; apply append_cancel in H; discriminate H.
Qed.

Lemma save_info_ok (openable encodable : string -> bool)
    (basepath url title permalink : string) (fs : gmap string string) :
  openable (basepath ++ "/url.txt") = true ->
  openable (basepath ++ "/title.txt") = true ->
  openable (basepath ++ "/permalink.txt") = true ->
  encodable url = true -> encodable title = true -> encodable permalink = true ->
  save_info openable encodable basepath url title permalink fs =
  (Return tt,
   <[basepath ++ "/permalink.txt" := permalink]>
     (<[basepath ++ "/title.txt" := title]>
        (<[basepath ++ "/url.txt" := url]> fs))).
Proof.
  intros Ho1 Ho2 Ho3 He1 He2 He3. unfold save_info, write_text.
  now rewrite Ho1, He1, Ho2, He2, Ho3, He3.
Qed.

Lemma save_info_returns (openable encodable : string -> bool)
    (basepath url title permalink : string) (fs : gmap string string) :
  fst (save_info openable encodable basepath url title permalink fs) = Return tt ->
  (openable (basepath ++ "/url.txt") = true /\
   openable (basepath ++ "/title.txt") = true /\
   openable (basepath ++ "/permalink.txt") = true) /\
  encodable url = true /\ encodable title = true /\ encodable permalink = true.
Proof.
  unfold save_info, write_text.
  destruct (openable (basepath ++ "/url.txt")); [|discriminate].
  destruct (encodable url); [|discriminate].
  destruct (openable (basepath ++ "/title.txt")); [|discriminate].
  destruct (encodable title); [|discriminate].
  destruct (openable (basepath ++ "/permalink.txt")); [|discriminate].
  destruct (encodable permalink); [|discriminate].
  auto.
Qed.

(** X1.  When the three files can be opened and the three texts encoded,
    [save_info] returns, and afterwards [url.txt], [title.txt] and
    [permalink.txt] under the base path hold the url, the title and the
    permalink as given; every other file is as it was. *)
Theorem save_info_round_trip (openable encodable : string -> bool)
    (basepath url title permalink : string) (fs : gmap string string) :
  openable (basepath ++ "/url.txt") = true ->
  openable (basepath ++ "/title.txt") = true ->
  openable (basepath ++ "/permalink.txt") = true ->
  encodable url = true -> encodable title = true -> encodable permalink = true ->
  exists fs' : gmap string string,
    save_info openable encodable basepath url title permalink fs = (Return tt, fs') /\
    fs' !! (basepath ++ "/url.txt") = Some url /\
    fs' !! (basepath ++ "/title.txt") = Some title /\
    fs' !! (basepath ++ "/permalink.txt") = Some permalink /\
    forall path : string,
      path <> basepath ++ "/url.txt" ->
      path <> basepath ++ "/title.txt" ->
      path <> basepath ++ "/permalink.txt" ->
      fs' !! path = fs !! path.
Proof.
  intros Ho1 Ho2 Ho3 He1 He2 He3.
  destruct (info_paths_distinct basepath) as (D12 & D13 & D23).
  eexists. split; [now apply save_info_ok|].
  split; [now rewrite !lookup_insert_ne, lookup_insert_eq by congruence|].
  split; [now rewrite lookup_insert_ne, lookup_insert_eq by congruence|].
  split; [apply lookup_insert_eq|].
  intros path N1 N2 N3. now rewrite !lookup_insert_ne by congruence.
Qed.

Lemma save_info_round_trip_witness :
  exists fs' : gmap string string,
    save_info always always "/tmp/wp" "http://i.redd.it/a.png" "Sunset [4K]"
      "/r/wallpapers/comments/abc" ∅ = (Return tt, fs') /\
    fs' !! "/tmp/wp/title.txt" = Some "Sunset [4K]".
Proof.
  destruct (save_info_round_trip always always "/tmp/wp" "http://i.redd.it/a.png"
              "Sunset [4K]" "/r/wallpapers/comments/abc" ∅
              eq_refl eq_refl eq_refl eq_refl eq_refl eq_refl)
    as (fs' & Hrun & _ & Ht & _).
  exists fs'. split; [exact Hrun|exact Ht].
Defined.

(** X2.  [save_info] is not all-or-nothing.  When [url.txt] cannot be
    opened it raises IOError and writes nothing.  When [url.txt] is written
    and [title.txt] cannot be opened it raises IOError with [url.txt]
    already holding the new url.  When the title cannot be encoded it raises
    with the new url written and [title.txt] left empty.  In both cases where
    a later file fails, [permalink.txt] is as it was. *)
Theorem save_info_partial_on_failure (openable encodable : string -> bool)
    (basepath url title permalink : string) (fs : gmap string string) :
  (openable (basepath ++ "/url.txt") = false ->
   save_info openable encodable basepath url title permalink fs = (Raise IOError, fs)) /\
  (openable (basepath ++ "/url.txt") = true -> encodable url = true ->
   openable (basepath ++ "/title.txt") = false ->
   exists fs' : gmap string string,
     save_info openable encodable basepath url title permalink fs = (Raise IOError, fs') /\
     fs' !! (basepath ++ "/url.txt") = Some url /\
     fs' !! (basepath ++ "/title.txt") = fs !! (basepath ++ "/title.txt") /\
     fs' !! (basepath ++ "/permalink.txt") = fs !! (basepath ++ "/permalink.txt")) /\
  (openable (basepath ++ "/url.txt") = true -> encodable url = true ->
   openable (basepath ++ "/title.txt") = true -> encodable title = false ->
   exists fs' : gmap string string,
     save_info openable encodable basepath url title permalink fs = (Raise ValueError, fs') /\
     fs' !! (basepath ++ "/url.txt") = Some url /\
     fs' !! (basepath ++ "/title.txt") = Some "" /\
     fs' !! (basepath ++ "/permalink.txt") = fs !! (basepath ++ "/permalink.txt")).
Proof.
  destruct (info_paths_distinct basepath) as (D12 & D13 & D23).
  unfold save_info, write_text. split; [|split].
  - intros ->. reflexivity.
  - intros -> -> ->. eexists. split; [reflexivity|].
    split; [apply lookup_insert_eq|].
    split; now rewrite lookup_insert_ne by congruence.
  - intros -> -> -> ->. eexists. split; [reflexivity|].
    split; [now rewrite lookup_insert_ne, lookup_insert_eq by congruence|].
    split; [apply lookup_insert_eq|].
    now rewrite !lookup_insert_ne by congruence.
Qed.

Lemma save_info_partial_on_failure_witness :
  exists fs' : gmap string string,
    save_info only_url always "/tmp/wp" "http://i.redd.it/a.png" "Sunset [4K]"
      "/r/wallpapers/comments/abc" ∅ = (Raise IOError, fs') /\
    fs' !! "/tmp/wp/url.txt" = Some "http://i.redd.it/a.png".
Proof.
  destruct (proj1 (proj2 (save_info_partial_on_failure only_url always "/tmp/wp"
                            "http://i.redd.it/a.png" "Sunset [4K]"
                            "/r/wallpapers/comments/abc" ∅))
              eq_refl eq_refl eq_refl)
    as (fs' & Hrun & Hu & _).
  exists fs'. split; [exact Hrun|exact Hu].
Defined.

(** X3.  A [save_info] that returns replaces whatever an earlier
    [save_info] on the same base path left, whether that one returned or
    failed half way: the files are the same as if only the later call had
    run. *)
Theorem save_info_overwrites (openable1 encodable1 openable encodable : string -> bool)
    (basepath url1 title1 permalink1 url2 title2 permalink2 : string)
    (fs : gmap string string) :
  fst (save_info openable encodable basepath url2 title2 permalink2 fs) = Return tt ->
  save_info openable encodable basepath url2 title2 permalink2
    (snd (save_info openable1 encodable1 basepath url1 title1 permalink1 fs)) =
  save_info openable encodable basepath url2 title2 permalink2 fs.
Proof.
  intros Hret.
  destruct (save_info_returns _ _ _ _ _ _ _ Hret)
    as ((Ho1 & Ho2 & Ho3) & He1 & He2 & He3).
  rewrite !(save_info_ok openable encodable basepath url2 title2 permalink2)
    by assumption.
  f_equal. apply map_eq. intros k.
  unfold save_info, write_text.
  destruct (openable1 (basepath ++ "/url.txt")), (encodable1 url1),
    (openable1 (basepath ++ "/title.txt")), (encodable1 title1),
    (openable1 (basepath ++ "/permalink.txt")), (encodable1 permalink1);
    cbn [snd]; rewrite !lookup_insert; repeat case_decide; congruence.
Qed.

Lemma save_info_overwrites_witness :
  save_info always always "/tmp/wp" "u2" "t2" "p2"
    (snd (save_info only_url always "/tmp/wp" "u1" "t1" "p1" ∅)) =
  save_info always always "/tmp/wp" "u2" "t2" "p2" ∅.
Proof.
  apply (save_info_overwrites only_url always always always "/tmp/wp"
           "u1" "t1" "p1" "u2" "t2" "p2" ∅ eq_refl).
Defined.

(** ** [remove_tags] once more *)

Lemma first_line_sub_tags (n : nat) (r : string) :
  has is_close (first_line r) = false ->
  first_line (sub_tags_fuel n r) = first_line r.
Proof.
  revert r. induction n as [|n IH]; intros r H; [reflexivity|].
  destruct r as [|c r]; [reflexivity|].
  cbn [first_line] in H. cbn [sub_tags_fuel].
  destruct (is_newline c) eqn:En.
  - assert (is_open c = false) as ->.
    { unfold is_newline in En. apply Ascii.eqb_eq in En. now subst c. }
    cbn [first_line]. now rewrite En.
  - cbn [has] in H. apply orb_false_iff in H as [Hc Hr].
    assert (Hk : first_line (String c (sub_tags_fuel n r)) = first_line (String c r)).
    { cbn [first_line]. now rewrite En, (IH _ Hr). }
    destruct (is_open c); [|exact Hk].
    now rewrite (proj2 (find_close_None r) Hr).
Qed.

Lemma sub_tags_fuel_clean (n : nat) (s : string) :
  (String.length s <= n)%nat -> no_tag (sub_tags_fuel n s) = true.
Proof.
  revert s. induction n as [|n IH]; intros s Hlen.
  - destruct s; simpl in *; [reflexivity|lia].
  - destruct s as [|c r]; [reflexivity|]. simpl in Hlen. cbn [sub_tags_fuel].
    destruct (is_open c) eqn:Eo.
    + destruct (find_close r) as [r'|] eqn:Ef.
      * destruct (find_close_Some _ _ Ef) as (body & d & _ & _ & _ & _ & Hl).
        apply IH. lia.
      * cbn [no_tag]. rewrite IH by lia.
        apply find_close_None in Ef.
        now rewrite (first_line_sub_tags n r Ef), Ef, orb_true_r.
    + cbn [no_tag]. rewrite Eo. simpl. apply IH. lia.
Qed.

Lemma first_line_cons (c : ascii) (r : string) :
  first_line (String c r) =
  if is_newline c then EmptyString else String c (first_line r).
Proof. reflexivity. Qed.

Lemma first_line_collapse_spaces (p : ascii -> bool) (s : string) :
  p " "%char = false ->
  has p (first_line (collapse_spaces s)) = has p (first_line s).
Proof.
  intros Hp. induction s as [|c r IH]; [reflexivity|].
  assert (Hsp : is_sp c = true -> p c = false /\ is_newline c = false).
  { unfold is_sp. intros E. apply Ascii.eqb_eq in E. now subst c. }
  destruct r as [|c' r'].
  - simpl. now destruct (is_sp c).
  - rewrite collapse_spaces_cons.
    destruct (is_sp c) eqn:Ec; [destruct (is_sp c') eqn:Ec'|].
    + destruct (Hsp eq_refl) as [Hpc Hn]. rewrite IH.
      rewrite (first_line_cons c), Hn. cbn [has]. now rewrite Hpc.
    + rewrite !(first_line_cons c). destruct (is_newline c); [reflexivity|].
      cbn [has]. now rewrite IH.
    + rewrite !(first_line_cons c). destruct (is_newline c); [reflexivity|].
      cbn [has]. now rewrite IH.
Qed.

Lemma no_tag_collapse_spaces (s : string) :
  no_tag s = true -> no_tag (collapse_spaces s) = true.
Proof.
  induction s as [|c r IH]; [auto|].
  intros H. cbn [no_tag] in H. apply andb_true_iff in H as [H1 H2].
  specialize (IH H2).
  assert (Hk : no_tag (String c (collapse_spaces r)) = true).
  { cbn [no_tag]. now rewrite first_line_collapse_spaces, H1, IH by reflexivity. }
  destruct r as [|c' r']; [simpl; destruct (is_sp c); exact Hk|].
  rewrite collapse_spaces_cons.
  destruct (is_sp c); [destruct (is_sp c')|]; auto.
Qed.

Lemma no_tag_lstrip (s : string) : no_tag s = true -> no_tag (PyStr.lstrip s) = true.
Proof.
  induction s as [|c r IH]; [auto|].
  intros H. simpl. destruct (PyStr.isspace c); [|exact H].
  cbn [no_tag] in H. apply andb_true_iff in H as [_ H]. auto.
Qed.

Lemma first_line_rstrip (p : ascii -> bool) (r : string) :
  has p (first_line r) = false -> has p (first_line (PyStr.rstrip r)) = false.
Proof.
  induction r as [|c r IH]; [auto|].
  cbn [first_line PyStr.rstrip]. destruct (is_newline c) eqn:En.
  - intros _. destruct (PyStr.rstrip r); [destruct (PyStr.isspace c)|];
      cbn [first_line]; now rewrite ?En.
  - cbn [has]. intros H. apply orb_false_iff in H as [Hc Hr]. specialize (IH Hr).
    destruct (PyStr.rstrip r) as [|b t].
    + destruct (PyStr.isspace c); cbn [first_line has]; [reflexivity|].
      now rewrite En; cbn [has]; rewrite Hc.
    + rewrite (first_line_cons c), En. cbn [has]. now rewrite Hc, IH.
Qed.

Lemma no_tag_rstrip (s : string) : no_tag s = true -> no_tag (PyStr.rstrip s) = true.
Proof.
  induction s as [|c r IH]; [auto|].
  intros H. cbn [no_tag] in H. apply andb_true_iff in H as [H1 H2].
  specialize (IH H2). cbn [PyStr.rstrip].
  assert (Hf : negb (is_open c) || negb (has is_close (first_line (PyStr.rstrip r))) = true).
  { destruct (is_open c); [|reflexivity]. simpl in *.
    apply negb_true_iff in H1. now rewrite (first_line_rstrip _ _ H1). }
  destruct (PyStr.rstrip r) as [|b t].
  - destruct (PyStr.isspace c); [reflexivity|]. cbn [no_tag first_line has].
    now rewrite orb_true_r.
  - cbn [no_tag] in *. now rewrite Hf, IH.
Qed.

Lemma collapse_spaces_fixed (s : string) :
  double_space s = false -> collapse_spaces s = s.
Proof.
  induction s as [|c r IH]; [auto|].
  destruct r as [|c' r']; [simpl; now destruct (is_sp c)|].
  rewrite double_space_cons, collapse_spaces_cons.
  intros H. apply orb_false_iff in H as [Hc Hr]. rewrite (IH Hr).
  destruct (is_sp c); [|reflexivity]. simpl in Hc. now rewrite Hc.
Qed.

Lemma double_space_lstrip (s : string) :
  double_space s = false -> double_space (PyStr.lstrip s) = false.
Proof.
  induction s as [|c r IH]; [auto|].
  intros H. simpl PyStr.lstrip. destruct (PyStr.isspace c); [|exact H].
  apply IH. destruct r as [|c' r']; [reflexivity|].
  rewrite double_space_cons in H. now apply orb_false_iff in H as [_ H].
Qed.

Lemma double_space_rstrip (s : string) :
  double_space s = false -> double_space (PyStr.rstrip s) = false.
Proof.
  induction s as [|c r IH]; [auto|].
  intros H. cbn [PyStr.rstrip].
  destruct r as [|c' r'].
  - simpl. now destruct (PyStr.isspace c).
  - rewrite double_space_cons in H. apply orb_false_iff in H as [Hc Hr].
    specialize (IH Hr).
    destruct (PyStr.rstrip (String c' r')) as [|b t] eqn:Er.
    + now destruct (PyStr.isspace c).
    + pose proof (rstrip_head (String c' r') b) as Hh. rewrite Er in Hh.
      specialize (Hh eq_refl). injection Hh as <-.
      rewrite double_space_cons. now rewrite Hc, IH.
Qed.

Lemma lstrip_fixed (s : string) :
  (forall c, first_char s = Some c -> PyStr.isspace c = false) ->
  PyStr.lstrip s = s.
Proof.
  destruct s as [|c r]; [auto|]. intros H. simpl. now rewrite (H c eq_refl).
Qed.

Lemma rstrip_fixed (s : string) :
  (forall c, last_char s = Some c -> PyStr.isspace c = false) ->
  PyStr.rstrip s = s.
Proof.
  induction s as [|c r IH]; [auto|].
  intros H. cbn [PyStr.rstrip]. destruct r as [|c' r'].
  - simpl. now rewrite (H c eq_refl).
  - rewrite IH; [reflexivity|]. intros d Hd. apply H. exact Hd.
Qed.

Lemma strip_strip (s : string) : PyStr.strip (PyStr.strip s) = PyStr.strip s.
Proof.
  destruct (strip_trimmed s) as [Hf Hl].
  unfold PyStr.strip at 1. rewrite (lstrip_fixed _ Hf). now apply rstrip_fixed.
Qed.

(** X4.  A title with nothing to clean is returned as it is: when no tag
    starts in it, it has no two spaces in a row and no whitespace at either
    end, [remove_tags] gives the title back. *)
Theorem remove_tags_fixed (s : string) :
  no_tag s = true ->
  double_space s = false ->
  PyStr.strip s = s ->
  remove_tags s = s.
Proof.
  intros Ht Hd Hs. unfold remove_tags, sub_tags.
  now rewrite (sub_tags_fuel_no_tag _ _ Ht), (collapse_spaces_fixed _ Hd).
Qed.

Lemma remove_tags_fixed_witness : remove_tags "My Title ] x" = "My Title ] x".
Proof.
  apply (remove_tags_fixed "My Title ] x"); reflexivity.
Defined.

Lemma sub_tags_fuel_shorter (n : nat) (s : string) :
  (String.length (sub_tags_fuel n s) <= String.length s)%nat.
Proof.
  revert s. induction n as [|n IH]; intros s; [reflexivity|].
  destruct s as [|c r]; [reflexivity|]. cbn [sub_tags_fuel].
  assert (Hk : (String.length (String c (sub_tags_fuel n r))
                <= String.length (String c r))%nat).
  { simpl. specialize (IH r). lia. }
  destruct (is_open c); [|exact Hk].
  destruct (find_close r) as [r'|] eqn:Ef; [|exact Hk].
  destruct (find_close_Some _ _ Ef) as (_ & _ & _ & _ & _ & _ & Hl).
  specialize (IH r'). simpl. lia.
Qed.

Lemma collapse_spaces_shorter (s : string) :
  (String.length (collapse_spaces s) <= String.length s)%nat.
Proof.
  induction s as [|c r IH]; [reflexivity|].
  destruct r as [|c' r']; [simpl; now destruct (is_sp c)|].
  rewrite collapse_spaces_cons.
  destruct (is_sp c); [destruct (is_sp c')|];
    cbn [String.length] in *; lia.
Qed.

Lemma lstrip_shorter (s : string) :
  (String.length (PyStr.lstrip s) <= String.length s)%nat.
Proof.
  induction s as [|c r IH]; [reflexivity|].
  simpl. destruct (PyStr.isspace c); simpl; lia.
Qed.

Lemma rstrip_shorter (s : string) :
  (String.length (PyStr.rstrip s) <= String.length s)%nat.
Proof.
  induction s as [|c r IH]; [reflexivity|].
  cbn [PyStr.rstrip]. destruct (PyStr.rstrip r);
    [destruct (PyStr.isspace c)|]; cbn [String.length] in *; lia.
Qed.

Lemma remove_tags_shorter (s : string) :
  (String.length (remove_tags s) <= String.length s)%nat.
Proof.
  unfold remove_tags, PyStr.strip, sub_tags.
  pose proof (rstrip_shorter
                (PyStr.lstrip (collapse_spaces (sub_tags_fuel (String.length s) s)))).
  pose proof (lstrip_shorter (collapse_spaces (sub_tags_fuel (String.length s) s))).
  pose proof (collapse_spaces_shorter (sub_tags_fuel (String.length s) s)).
  pose proof (sub_tags_fuel_shorter (String.length s) s).
  lia.
Qed.

Lemma remove_tags_clean_aux (s : string) :
  no_tag (remove_tags s) = true /\ double_space (remove_tags s) = false.
Proof.
  unfold remove_tags, PyStr.strip. split.
  - apply no_tag_rstrip, no_tag_lstrip, no_tag_collapse_spaces.
    apply sub_tags_fuel_clean. lia.
  - apply double_space_rstrip, double_space_lstrip, collapse_spaces_single.
Qed.

(** X5.  What [remove_tags] returns needs no further cleaning: no tag
    starts anywhere in it, it has no two spaces in a row, and it is not
    longer than the title given. *)
Theorem remove_tags_clean (s : string) :
  no_tag (remove_tags s) = true /\
  double_space (remove_tags s) = false /\
  (String.length (remove_tags s) <= String.length s)%nat.
Proof.
  destruct (remove_tags_clean_aux s) as [Ht Hd].
  split; [exact Ht|]. split; [exact Hd|].
  apply remove_tags_shorter.
Qed.

(** X6.  [remove_tags] is idempotent: cleaning a cleaned title changes
    nothing. *)
Theorem remove_tags_idempotent (s : string) :
  remove_tags (remove_tags s) = remove_tags s.
Proof.
  destruct (remove_tags_clean_aux s) as [Ht Hd].
  unfold remove_tags at 1, sub_tags.
  rewrite (sub_tags_fuel_no_tag _ _ Ht), (collapse_spaces_fixed _ Hd).
  unfold remove_tags. apply strip_strip.
Qed.

(** ** Gravity once more *)

Lemma append_cons (c : ascii) (a b : string) :
  String c a ++ b = String c (a ++ b).
Proof. reflexivity. Qed.

Lemma append_nil (b : string) : "" ++ b = b.
Proof. reflexivity. Qed.

Lemma lower_app (a b : string) :
  PyStr.lower (a ++ b) = PyStr.lower a ++ PyStr.lower b.
Proof.
  induction a as [|c a IH]; [reflexivity|].
  rewrite append_cons. cbn [PyStr.lower]. now rewrite IH, append_cons.
Qed.

Lemma remove_char_app (old : ascii) (a b : string) :
  PyStr.remove_char old (a ++ b) =
  PyStr.remove_char old a ++ PyStr.remove_char old b.
Proof.
  induction a as [|c a IH]; [reflexivity|].
  rewrite append_cons. cbn [PyStr.remove_char].
  destruct (Ascii.eqb c old); rewrite IH; [reflexivity|now rewrite append_cons].
Qed.

Lemma prefix_nil (y : string) : String.prefix "" y = true.
Proof. destruct y; reflexivity. Qed.

Lemma prefix_app (n y : string) : String.prefix n (n ++ y) = true.
Proof.
  induction n as [|c n IH]; [apply prefix_nil|].
  rewrite append_cons. cbn [String.prefix].
  destruct (ascii_dec c c); [exact IH|congruence].
Qed.

Lemma contains_cons (n : string) (c : ascii) (r : string) :
  PyStr.contains n (String c r) = String.prefix n (String c r) || PyStr.contains n r.
Proof. reflexivity. Qed.

Lemma contains_app (n x y : string) : PyStr.contains n (x ++ n ++ y) = true.
Proof.
  induction x as [|c x IH].
  - rewrite append_nil. destruct (n ++ y) as [|d t] eqn:E.
    + destruct n; [reflexivity|discriminate E].
    + rewrite contains_cons, <- E, prefix_app. reflexivity.
  - rewrite append_cons, contains_cons, IH. apply orb_true_r.
Qed.

Lemma contains_lstrip (a : ascii) (n s : string) :
  PyStr.isspace a = false ->
  PyStr.contains (String a n) (PyStr.lstrip s) = PyStr.contains (String a n) s.
Proof.
  intros Ha. induction s as [|c r IH]; [reflexivity|].
  cbn [PyStr.lstrip]. destruct (PyStr.isspace c) eqn:Ec; [|reflexivity].
  rewrite IH, (contains_cons _ c r). cbn [String.prefix].
  destruct (ascii_dec a c) as [->|]; [congruence|reflexivity].
Qed.

Lemma prefix_rstrip (n x : string) :
  has PyStr.isspace n = false ->
  String.prefix n (PyStr.rstrip x) = String.prefix n x.
Proof.
  revert x. induction n as [|a n IH]; intros x Hn; [now rewrite !prefix_nil|].
  cbn [has] in Hn. apply orb_false_iff in Hn as [Ha Hn].
  destruct x as [|c r]; [reflexivity|].
  specialize (IH r Hn). cbn [PyStr.rstrip].
  destruct (PyStr.rstrip r) as [|b t] eqn:Er.
  - destruct (PyStr.isspace c) eqn:Ec; cbn [String.prefix].
    + destruct (ascii_dec a c) as [->|]; [congruence|reflexivity].
    + destruct (ascii_dec a c); [exact IH|reflexivity].
  - cbn [String.prefix] in *. destruct (ascii_dec a c); [exact IH|reflexivity].
Qed.

Lemma contains_rstrip (n s : string) :
  has PyStr.isspace n = false ->
  PyStr.contains n (PyStr.rstrip s) = PyStr.contains n s.
Proof.
  intros Hn. induction s as [|c r IH]; [reflexivity|].
  rewrite (contains_cons n c r), <- (prefix_rstrip n (String c r) Hn), <- IH.
  cbn [PyStr.rstrip]. destruct (PyStr.rstrip r) as [|b t] eqn:Er.
  - destruct (PyStr.isspace c).
    + destruct n; reflexivity.
    + rewrite contains_cons. reflexivity.
  - rewrite contains_cons. reflexivity.
Qed.

Lemma contains_strip (a : ascii) (n s : string) :
  has PyStr.isspace (String a n) = false ->
  PyStr.contains (String a n) (PyStr.strip s) = PyStr.contains (String a n) s.
Proof.
  intros H. unfold PyStr.strip. rewrite contains_rstrip by exact H.
  apply contains_lstrip. cbn [has] in H. now apply orb_false_iff in H as [H _].
Qed.

Lemma keyword_found (a : ascii) (n before word after : string) :
  has PyStr.isspace (String a n) = false ->
  PyStr.remove_char " " (PyStr.lower word) = String a n ->
  PyStr.contains (String a n) (normalize_gravity (before ++ word ++ after)) = true.
Proof.
  intros Hn Hw. unfold normalize_gravity.
  rewrite contains_strip by exact Hn.
  rewrite !lower_app, !remove_char_app, Hw. apply contains_app.
Qed.

(** X7.  A gravity string that spells "left" anywhere, in any case and
    with spaces between the letters or not, anchors the title on the left,
    whatever comes before and after the word; one that spells "top" anchors
    it at the top. *)
Theorem gravity_keyword_anywhere (before word after : string) :
  (PyStr.remove_char " " (PyStr.lower word) = "left" ->
   horizontal (before ++ word ++ after) = Left) /\
  (PyStr.remove_char " " (PyStr.lower word) = "top" ->
   vertical (before ++ word ++ after) = Top).
Proof.
  split; intros Hw.
  - unfold horizontal. now rewrite (keyword_found "l" "eft" _ _ _ eq_refl Hw).
  - unfold vertical. now rewrite (keyword_found "t" "op" _ _ _ eq_refl Hw).
Qed.

Lemma gravity_keyword_anywhere_witness :
  horizontal ("bottom-" ++ "L e F t" ++ " please") = Left.
Proof.
  apply (proj1 (gravity_keyword_anywhere "bottom-" "L e F t" " please")).
  reflexivity.
Defined.

(** X8.  When the padding is not negative and the title with its padding
    fits into the image in both axes, the title lies inside the image for
    every gravity string: its top-left corner is not before the origin and
    its bottom-right corner is not beyond the size of the image. *)
Theorem title_inside_canvas (gravity : string) (gw gh cw ch px py : Z) :
  0 <= px -> 0 <= py -> gw + px <= cw -> gh + py <= ch ->
  let xy := resolve gravity (gw, gh) (cw, ch) (px, py) in
  (0 <= value (fst xy))%Q /\
  (value (fst xy) + inject_Z gw <= inject_Z cw)%Q /\
  (0 <= value (snd xy))%Q /\
  (value (snd xy) + inject_Z gh <= inject_Z ch)%Q.
Proof.
  intros Hpx Hpy Hw Hh. cbv zeta.
  unfold resolve, title_top_left_x, title_top_left_y, truediv. cbn [fst snd].
  repeat match goal with
         | |- context [if ?b then _ else _] => destruct b
         end;
    cbn [value]; unfold Qle, Qplus, Qdiv, Qmult, Qinv, inject_Z; simpl;
    repeat split; lia.
Qed.

Lemma title_inside_canvas_witness :
  Qle 0 (value (fst (resolve "bottom center" (301, 48) (1920, 1080) (0, 40)))) /\
  Qle (value (snd (resolve "bottom center" (301, 48) (1920, 1080) (0, 40)))
       + inject_Z 48) (inject_Z 1080).
Proof.
  destruct (title_inside_canvas "bottom center" 301 48 1920 1080 0 40
              ltac:(lia) ltac:(lia) ltac:(lia) ltac:(lia)) as (H1 & _ & _ & H4).
  split; [exact H1|exact H4].
Defined.

(** X9.  For every gravity string the margins are what the anchor says: a
    title anchored right or at the bottom ends exactly the padding before
    that edge, and a centred title has the same margin on both sides of the
    axis, whatever the padding. *)
Theorem title_margins (gravity : string) (gw gh cw ch px py : Z) :
  let xy := resolve gravity (gw, gh) (cw, ch) (px, py) in
  (horizontal gravity = Right ->
   value (fst xy) + inject_Z gw + inject_Z px == inject_Z cw)%Q /\
  (horizontal gravity = HCenter ->
   value (fst xy) == inject_Z cw - (value (fst xy) + inject_Z gw))%Q /\
  (vertical gravity = Bottom ->
   value (snd xy) + inject_Z gh + inject_Z py == inject_Z ch)%Q /\
  (vertical gravity = VCenter ->
   value (snd xy) == inject_Z ch - (value (snd xy) + inject_Z gh))%Q.
Proof.
  cbv zeta.
  unfold resolve, horizontal, vertical, title_top_left_x, title_top_left_y,
    truediv. cbn [fst snd].
  repeat match goal with
         | |- context [PyStr.contains ?n ?g] => destruct (PyStr.contains n g)
         end;
    repeat split; intros H; try discriminate H; cbn [value];
    unfold Qeq, Qplus, Qminus, Qopp, Qdiv, Qmult, Qinv, inject_Z; simpl; lia.
Qed.

Lemma title_margins_witness :
  Qeq (value (fst (resolve "bottom right" (50, 20) (200, 100) (10, 10)))
       + inject_Z 50 + inject_Z 10) (inject_Z 200).
Proof.
  apply (proj1 (title_margins "bottom right" 50 20 200 100 10 10)).
  reflexivity.
Defined.

(** ** [pure_pil_alpha_to_color_v2] once more *)

Lemma blend_between (a background source : Z) :
  0 <= a <= 255 ->
  Z.min background source <= blend a background source <= Z.max background source.
Proof.
  intros Ha. rewrite blend_integer.
  set (n := background * (255 - a) + source * a).
  assert (Hn : 255 * Z.min background source <= n <= 255 * Z.max background source).
  { unfold n. destruct (Z.le_ge_cases background source) as [L|L].
    - rewrite Z.min_l, Z.max_r by lia. nia.
    - rewrite Z.min_r, Z.max_l by lia. nia. }
  split.
  - apply Z.div_le_lower_bound; lia.
  - apply Z.lt_succ_r, Z.div_lt_upper_bound; lia.
Qed.

Section Flattening.

Variable convert_other : string -> string -> list band -> list band.

Local Abbreviation pure_pil_alpha_to_color_v2' :=
  (pure_pil_alpha_to_color_v2 convert_other).

Lemma pure_pil_bad_colour (w : World) (image : loc) (im : Image) (color : list Z)
    (e : exn) :
  heap w !! image = Some im ->
  Image_new_RGB (Image_size im) color = inl e ->
  pure_pil_alpha_to_color_v2' image color w = (Raise e, w).
Proof.
  intros Hl Hn. unfold pure_pil_alpha_to_color_v2.
  rewrite bind_run, (deref_run _ _ _ Hl), bind_run, Hn. reflexivity.
Qed.

Lemma pure_pil_no_alpha (w : World) (image : loc) (im new : Image) (color : list Z) :
  heap w !! image = Some im ->
  Image_new_RGB (Image_size im) color = inr new ->
  Image_bands im !! 3%nat = None ->
  pure_pil_alpha_to_color_v2' image color w =
  (Raise IndexError,
   mkWorld (<[fresh (dom (heap w)) := new]> (heap w)) (log w)).
Proof.
  intros Hl Hn Hb. unfold pure_pil_alpha_to_color_v2.
  rewrite bind_run, (deref_run _ _ _ Hl), bind_run, Hn.
  cbn [lift]. unfold mret at 1, M_ret at 1. rewrite bind_run.
  unfold alloc at 1. rewrite bind_run. unfold Image_split. rewrite Hb.
  reflexivity.
Qed.

Lemma pure_pil_alpha (w : World) (image : loc) (im new : Image) (color : list Z)
    (a : band) :
  heap w !! image = Some im ->
  Image_new_RGB (Image_size im) color = inr new ->
  Image_bands im !! 3%nat = Some a ->
  pure_pil_alpha_to_color_v2' image color w =
  (Return (fresh (dom (heap w))),
   mkWorld (<[fresh (dom (heap w)) := paste convert_other new im a]>
              (<[fresh (dom (heap w)) := new]> (heap w)))
           (log w)).
Proof.
  intros Hl Hn Hb. unfold pure_pil_alpha_to_color_v2.
  rewrite bind_run, (deref_run _ _ _ Hl), bind_run, Hn.
  cbn [lift]. unfold mret at 1, M_ret at 1. rewrite bind_run.
  unfold alloc at 1. rewrite bind_run. unfold Image_split. rewrite Hb.
  cbn [lift]. unfold mret at 1, M_ret at 1.
  rewrite bind_run. unfold Image_paste.
  rewrite bind_run.
  erewrite deref_run by (cbn [heap]; apply lookup_insert_eq).
  rewrite bind_run.
  rewrite (deref_run image im) by (cbn [heap]; now apply alloc_keeps).
  reflexivity.
Qed.

(** X10.  On an image with fewer than four bands, an RGB image for one,
    and a colour of three ints, [pure_pil_alpha_to_color_v2] raises
    IndexError and returns no image; the objects of the heap are as they
    were. *)
Theorem alpha_flattener_needs_alpha (w : World) (image : loc) (im : Image)
    (cr cg cb : Z) :
  heap w !! image = Some im ->
  (length (Image_bands im) < 4)%nat ->
  exists w' : World,
    pure_pil_alpha_to_color_v2' image [cr; cg; cb] w = (Raise IndexError, w') /\
    forall l im', heap w !! l = Some im' -> heap w' !! l = Some im'.
Proof.
  intros Hl Hlen. eexists. split.
  - apply (pure_pil_no_alpha w image im _ [cr; cg; cb] Hl eq_refl).
    apply lookup_ge_None. lia.
  - intros l im' H. cbn [heap]. now apply alloc_keeps.
Qed.

(** X11.  [pure_pil_alpha_to_color_v2] never changes an image that exists
    when it is called, its argument included, whether it returns or raises:
    the only object it writes to is the background it creates. *)
Theorem alpha_flattener_keeps_input (w : World) (image : loc) (color : list Z)
    (l : loc) (im : Image) :
  heap w !! l = Some im ->
  heap (snd (pure_pil_alpha_to_color_v2' image color w)) !! l = Some im.
Proof.
  intros H.
  destruct (heap w !! image) as [im0|] eqn:Hl.
  - destruct (Image_new_RGB (Image_size im0) color) as [e|new] eqn:Hn.
    { now rewrite (pure_pil_bad_colour w image im0 color e Hl Hn). }
    destruct (Image_bands im0 !! 3%nat) as [a|] eqn:Hb.
    + rewrite (pure_pil_alpha w image im0 new color a Hl Hn Hb). cbn [snd heap].
      pose proof (fresh_other _ _ _ H) as Hne.
      now rewrite !lookup_insert_ne by exact Hne.
    + rewrite (pure_pil_no_alpha w image im0 new color Hl Hn Hb). cbn [snd heap].
      now apply alloc_keeps.
  - unfold pure_pil_alpha_to_color_v2. rewrite bind_run.
    unfold deref at 1. rewrite Hl. exact H.
Qed.

(** X12.  On an RGBA image whose alpha plane holds bytes (0..255), with a
    background colour of three bytes, every channel of every pixel that
    [pure_pil_alpha_to_color_v2] produces lies between the channel of the
    background colour and the channel of the source pixel; so byte inputs
    give byte outputs. *)
Theorem alpha_flattener_between (w : World) (image : loc) (im : Image)
    (r g b a : band) (cr cg cb : Z) :
  heap w !! image = Some im ->
  Image_mode im = "RGBA" ->
  Image_bands im = [r; g; b; a] ->
  0 <= cr <= 255 -> 0 <= cg <= 255 -> 0 <= cb <= 255 ->
  (forall x y, 0 <= a x y <= 255) ->
  exists (background : loc) (out : Image) (w' : World),
    pure_pil_alpha_to_color_v2' image [cr; cg; cb] w = (Return background, w') /\
    heap w' !! background = Some out /\
    forall x y, exists vr vg vb : Z,
      getpixel out x y = [vr; vg; vb] /\
      Z.min cr (r x y) <= vr <= Z.max cr (r x y) /\
      Z.min cg (g x y) <= vg <= Z.max cg (g x y) /\
      Z.min cb (b x y) <= vb <= Z.max cb (b x y).
Proof.
  intros Hl Hm Hb Hcr Hcg Hcb Ha.
  assert (H3 : Image_bands im !! 3%nat = Some a) by now rewrite Hb.
  eexists _, _, _.
  split; [apply (pure_pil_alpha w image im _ [cr; cg; cb] a Hl eq_refl H3)|].
  split; [cbn [heap]; apply lookup_insert_eq|].
  intros x y. unfold getpixel, paste, paste_planes.
  cbn [Image_bands Image_mode]. rewrite Hm, Hb. cbn.
  rewrite !clip8_byte by assumption.
  eexists _, _, _. split; [reflexivity|].
  repeat split; apply blend_between, Ha.
Qed.

End Flattening.

Lemma alpha_flattener_needs_alpha_witness :
  exists w' : World,
    pure_pil_alpha_to_color_v2 no_conversion 0%nat [255; 255; 255]
      (world_of sample_rgb) = (Raise IndexError, w').
Proof.
  destruct (alpha_flattener_needs_alpha no_conversion (world_of sample_rgb) 0%nat
              sample_rgb 255 255 255 eq_refl ltac:(simpl; lia)) as (w' & Hrun & _).
  exists w'. exact Hrun.
Defined.

Lemma alpha_flattener_keeps_input_witness :
  heap (snd (pure_pil_alpha_to_color_v2 no_conversion 0%nat white
               (world_of sample_rgba))) !! 0%nat = Some sample_rgba.
Proof.
  apply (alpha_flattener_keeps_input no_conversion (world_of sample_rgba) 0%nat
           white 0%nat sample_rgba eq_refl).
Defined.

Lemma alpha_flattener_between_witness :
  exists (background : loc) (out : Image) (w' : World),
    pure_pil_alpha_to_color_v2 no_conversion 0%nat [255; 255; 255]
      (world_of sample_rgba) = (Return background, w') /\
    heap w' !! background = Some out.
Proof.
  destruct (alpha_flattener_between no_conversion (world_of sample_rgba) 0%nat
              sample_rgba
              (fun _ _ => 10) (fun _ _ => 20) (fun _ _ => 30)
              (fun x _ => if x =? 0 then 0 else 255) 255 255 255
              eq_refl eq_refl eq_refl ltac:(lia) ltac:(lia) ltac:(lia)
              ltac:(intros x y; cbv beta; destruct (x =? 0); lia))
    as (l & out & w' & Hrun & Hout & _).
  exists l, out, w'. split; [exact Hrun|exact Hout].
Defined.

(** ** [set_image_title] and [download_image] once more *)

Lemma draw_bitmap_outside (im : Image) (xy : pynum * pynum) (text : string)
    (font : ImageFont) (i : ink) (x y : Z) :
  text_mask font text (x - py_int (fst xy)) (y - py_int (snd xy)) = 0 ->
  getpixel (draw_bitmap im xy text font i) x y = getpixel im x y.
Proof.
  intros H. unfold getpixel, draw_bitmap. cbn [Image_bands].
  apply map_imap_pixel. intros k b. cbv beta. rewrite H. apply blend_transparent.
Qed.

Section Captions.

Variable requests_get : string -> exn + Raw.
Variable Image_open : Raw -> exn + Image.
Variable convert_other : string -> string -> list band -> list band.
Variable resource_string : string -> string -> exn + Raw.
Variable ImageFont_truetype : Raw -> Z -> exn + ImageFont.
Variable draw_other :
  Image -> pynum * pynum -> string -> ImageFont -> option (list Z) -> exn + list band.

Local Abbreviation download_image' := (download_image requests_get Image_open convert_other).
Local Abbreviation set_image_title' :=
  (set_image_title resource_string ImageFont_truetype draw_other).
Local Abbreviation font_file := (resource_string "wpreddit.download" "fonts/Cantarell-Regular.otf").

(** X13.  On an RGB image, the image [set_image_title] returns has the
    mode, the size and the number of bands of the image it was given. *)
Theorem set_image_title_keeps_shape (w : World) (img : loc) (im : Image)
    (title gravity : string) (padding : Z * Z) (fontsize : Z)
    (bytes : Raw) (font : ImageFont) :
  heap w !! img = Some im ->
  Image_mode im = "RGB" ->
  font_file = inr bytes ->
  ImageFont_truetype bytes fontsize = inr font ->
  exists (ret : loc) (out : Image) (w' : World),
    set_image_title' img title gravity padding fontsize w = (Return ret, w') /\
    heap w' !! ret = Some out /\
    Image_mode out = Image_mode im /\
    Image_size out = Image_size im /\
    length (Image_bands out) = length (Image_bands im).
Proof.
  intros Hl Hm Hr Hf.
  pose proof (set_image_title_run resource_string ImageFont_truetype draw_other
                w img im title gravity padding fontsize bytes font Hl Hm Hr Hf)
    as Hrun.
  cbv zeta in Hrun.
  eexists _, _, _. split; [exact Hrun|].
  split; [cbn [heap]; apply lookup_insert_eq|].
  split; [reflexivity|]. split; [reflexivity|].
  unfold caption_drawn, draw_bitmap. cbn [Image_bands].
  now rewrite !length_imap.
Qed.

(** X14.  On an RGB image [set_image_title] changes only what lies under
    the title or under its shadow: a pixel on which neither the mask of the title at the
    title point nor the mask of the title two pixels right and down has any
    coverage is in the returned image what it is in the image given. *)
Theorem set_image_title_outside_text (w : World) (img : loc) (im : Image)
    (title gravity : string) (padding : Z * Z) (fontsize : Z)
    (bytes : Raw) (font : ImageFont) :
  heap w !! img = Some im ->
  Image_mode im = "RGB" ->
  font_file = inr bytes ->
  ImageFont_truetype bytes fontsize = inr font ->
  let t := remove_tags title in
  let xy := title_point im font title gravity padding in
  exists (ret : loc) (out : Image) (w' : World),
    set_image_title' img title gravity padding fontsize w = (Return ret, w') /\
    heap w' !! ret = Some out /\
    forall x y,
      text_mask font t (x - py_int (fst xy)) (y - py_int (snd xy)) = 0 ->
      text_mask font t (x - py_int (py_add (fst xy) 2))
        (y - py_int (py_add (snd xy) 2)) = 0 ->
      getpixel out x y = getpixel im x y.
Proof.
  intros Hl Hm Hr Hf. cbv zeta.
  pose proof (set_image_title_run resource_string ImageFont_truetype draw_other
                w img im title gravity padding fontsize bytes font Hl Hm Hr Hf)
    as Hrun.
  cbv zeta in Hrun.
  eexists _, _, _. split; [exact Hrun|].
  split; [cbn [heap]; apply lookup_insert_eq|].
  intros x y H1 H2. unfold caption_drawn.
  rewrite draw_bitmap_outside by exact H1.
  now rewrite draw_bitmap_outside by exact H2.
Qed.

(** X15.  [set_image_title] does not catch what the font loader raises:
    when the packaged font cannot be read or cannot be loaded at the given
    size, the call raises that exception after logging "Setting title";
    nothing is returned and the image given is as it was. *)
Theorem set_image_title_font_failure (w : World) (img : loc) (im : Image)
    (title gravity : string) (padding : Z * Z) (fontsize : Z) (e : exn) :
  heap w !! img = Some im ->
  (font_file = inl e \/
   exists bytes, font_file = inr bytes /\ ImageFont_truetype bytes fontsize = inl e) ->
  exists w' : World,
    set_image_title' img title gravity padding fontsize w = (Raise e, w') /\
    heap w' !! img = Some im /\
    log w' = (log w ++ [(DEBUG, "Setting title")])%list.
Proof.
  intros Hl Hfail. eexists. split.
  - apply (set_image_title_no_font resource_string ImageFont_truetype draw_other
             w img im title gravity padding fontsize e Hl Hfail).
  - split; [cbn [heap]; now apply alloc_keeps|reflexivity].
Qed.

(** X16.  [download_image] never changes an image that exists when it is
    called, whatever happens, and the image it returns is a new object. *)
Theorem download_image_keeps_heap (url : string) (w : World) :
  (forall l im, heap w !! l = Some im ->
                heap (snd (download_image' url w)) !! l = Some im) /\
  (forall img, fst (download_image' url w) = Return img -> heap w !! img = None).
Proof.
  destruct (requests_get url) as [e|raw] eqn:Hg.
  { rewrite (download_image_fetch_fails _ _ _ _ _ _ Hg).
    split; [|intros img H; destruct e; discriminate H].
    intros l im H. destruct e; exact H. }
  destruct (Image_open raw) as [e|opened] eqn:Ho.
  { rewrite (download_image_decode_fails _ _ _ _ _ _ _ Hg Ho).
    split; [|intros img H; destruct e; discriminate H].
    intros l im H. destruct e; exact H. }
  rewrite (download_image_ok _ _ _ _ _ _ _ Hg Ho). cbv zeta. cbn [fst snd heap].
  split.
  - intros l im H. apply alloc_keeps. now apply alloc_keeps.
  - intros img [= <-].
    destruct (heap w !! fresh (dom (<[fresh (dom (heap w)) := opened]> (heap w))))
      as [im|] eqn:E; [|reflexivity].
    exfalso. eapply (fresh_other (<[fresh (dom (heap w)) := opened]> (heap w))).
    + apply alloc_keeps. exact E.
    + reflexivity.
Qed.

(** X17.  A source that decodes to an RGB image comes back as it was
    decoded: the conversion to "RGB" leaves its mode, its size and its
    planes as they are. *)
Theorem download_image_rgb_unchanged (url : string) (w : World)
    (raw : Raw) (opened : Image) :
  requests_get url = inr raw ->
  Image_open raw = inr opened ->
  Image_mode opened = "RGB" ->
  exists (img : loc) (w' : World),
    download_image' url w = (Return img, w') /\
    heap w' !! img = Some opened /\
    log w' = (log w ++ [(INFO, ("Downloading " ++ url)%string)])%list.
Proof.
  intros Hg Ho Hm. eexists _, _.
  split; [apply (download_image_ok _ _ _ _ _ _ _ Hg Ho)|].
  split; [|reflexivity].
  cbn [heap]. rewrite lookup_insert_eq. f_equal.
  destruct opened as [m sz bs]. cbn in Hm. subst m. reflexivity.
Qed.

End Captions.

Lemma set_image_title_keeps_shape_witness :
  exists (ret : loc) (out : Image) (w' : World),
    set_image_title resource_ok truetype_ok draw_nothing 0%nat "Sunset [4K]" "bottom center"
      (0, 40) 48 (world_of sample_rgb) = (Return ret, w') /\
    heap w' !! ret = Some out /\
    Image_size out = (64, 32).
Proof.
  destruct (set_image_title_keeps_shape resource_ok truetype_ok draw_nothing
              (world_of sample_rgb) 0%nat sample_rgb "Sunset [4K]" "bottom center"
              (0, 40) 48 [79; 84; 84; 79] block_font
              eq_refl eq_refl eq_refl eq_refl)
    as (ret & out & w' & Hrun & Hout & _ & Hs & _).
  exists ret, out, w'. auto.
Defined.

Lemma set_image_title_outside_text_witness :
  exists (ret : loc) (out : Image) (w' : World),
    set_image_title resource_ok truetype_ok draw_nothing 0%nat "A" "topleft" (0, 0) 12
      (world_of sample_rgb) = (Return ret, w') /\
    heap w' !! ret = Some out /\
    getpixel out 40 20 = getpixel sample_rgb 40 20.
Proof.
  destruct (set_image_title_outside_text resource_ok truetype_ok draw_nothing
              (world_of sample_rgb) 0%nat sample_rgb "A" "topleft" (0, 0) 12
              [79; 84; 84; 79] block_font eq_refl eq_refl eq_refl eq_refl)
    as (ret & out & w' & Hrun & Hout & Hpix).
  exists ret, out, w'. split; [exact Hrun|]. split; [exact Hout|].
  apply Hpix; reflexivity.
Defined.

Lemma set_image_title_font_failure_witness :
  exists w' : World,
    set_image_title resource_ok truetype_ok draw_nothing 0%nat "Sunset" "top" (0, 0) 0
      (world_of sample_rgb) = (Raise ValueError, w') /\
    heap w' !! 0%nat = Some sample_rgb.
Proof.
  destruct (set_image_title_font_failure resource_ok truetype_ok draw_nothing
              (world_of sample_rgb) 0%nat sample_rgb "Sunset" "top" (0, 0) 0
              ValueError eq_refl
              (or_intror (ex_intro _ [79; 84; 84; 79] (conj eq_refl eq_refl))))
    as (w' & Hrun & Hin & _).
  exists w'. split; [exact Hrun|exact Hin].
Defined.

Lemma download_image_keeps_heap_witness :
  heap (snd (download_image get_ok open_rgba no_conversion "http://i.redd.it/a.png"
               (world_of sample_rgb))) !! 0%nat = Some sample_rgb.
Proof.
  apply (proj1 (download_image_keeps_heap get_ok open_rgba no_conversion
                  "http://i.redd.it/a.png" (world_of sample_rgb))).
  reflexivity.
Defined.

Lemma download_image_rgb_unchanged_witness :
  exists (img : loc) (w' : World),
    download_image get_ok open_rgb no_conversion "http://i.redd.it/a.png"
      (mkWorld ∅ []) = (Return img, w') /\
    heap w' !! img = Some sample_rgb.
Proof.
  destruct (download_image_rgb_unchanged get_ok open_rgb no_conversion
              "http://i.redd.it/a.png" (mkWorld ∅ []) [137; 80; 78; 71] sample_rgb
              eq_refl eq_refl eq_refl) as (img & w' & Hrun & Hout & _).
  exists img, w'. split; [exact Hrun|exact Hout].
Defined.

(** ** Titles without tags *)

Lemma remove_whitespace_collapse (s : string) :
  remove_whitespace (collapse_spaces s) = remove_whitespace s.
Proof.
  induction s as [|c r IH]; [reflexivity|].
  assert (Hsp : is_sp c = true -> PyStr.isspace c = true).
  { unfold is_sp. intros E. apply Ascii.eqb_eq in E. now subst c. }
  destruct r as [|c' r']; [simpl; now destruct (is_sp c)|].
  rewrite collapse_spaces_cons.
  destruct (is_sp c) eqn:Ec; [destruct (is_sp c')|].
  - rewrite IH. cbn [remove_whitespace]. now rewrite (Hsp eq_refl).
  - cbn [remove_whitespace] in *. now rewrite IH.
  - cbn [remove_whitespace] in *. now rewrite IH.
Qed.

Lemma remove_whitespace_lstrip (s : string) :
  remove_whitespace (PyStr.lstrip s) = remove_whitespace s.
Proof.
  induction s as [|c r IH]; [reflexivity|].
  cbn [PyStr.lstrip remove_whitespace].
  destruct (PyStr.isspace c) eqn:Ec; [exact IH|].
  cbn [remove_whitespace]. now rewrite Ec.
Qed.

Lemma remove_whitespace_rstrip (s : string) :
  remove_whitespace (PyStr.rstrip s) = remove_whitespace s.
Proof.
  induction s as [|c r IH]; [reflexivity|].
  cbn [PyStr.rstrip remove_whitespace].
  destruct (PyStr.rstrip r) as [|b t].
  - cbn [remove_whitespace] in IH. rewrite <- IH.
    destruct (PyStr.isspace c) eqn:Ec; [reflexivity|].
    cbn [remove_whitespace]. now rewrite Ec.
  - cbn [remove_whitespace] in *. now rewrite IH.
Qed.

(** X18.  A title in which no opening bracket occurs loses nothing but
    whitespace: apart from whitespace, [remove_tags] returns the characters
    of the title, in their order. *)
Theorem remove_tags_without_brackets (s : string) :
  has is_open s = false ->
  remove_whitespace (remove_tags s) = remove_whitespace s.
Proof.
  intros H. unfold remove_tags, PyStr.strip, sub_tags.
  rewrite (sub_tags_fuel_no_tag _ _ (no_open_no_tag _ H)).
  now rewrite remove_whitespace_rstrip, remove_whitespace_lstrip,
    remove_whitespace_collapse.
Qed.

Lemma remove_tags_without_brackets_witness :
  remove_whitespace (remove_tags "  Alps  at   dawn] ") =
  remove_whitespace "  Alps  at   dawn] ".
Proof.
  apply (remove_tags_without_brackets "  Alps  at   dawn] "). reflexivity.
Defined.
